(** * exhibitor2dns: dynamic DNS for Exhibitor-run Zookeeper ensembles

    A shallow embedding of [src/exhibitor2dns/main.py].  The script talks to
    two external services (the Exhibitor REST endpoint and the Route53
    client); they are kept abstract as an interface over a world type, and
    the script itself is written in a small state-and-exception monad that
    records every external call and every log call in a trace. *)

From Stdlib Require Import ZArith Ascii DecimalString DecimalNat.
From stdpp Require Import base tactics option list sorting strings gmap.

Local Open Scope string_scope.
Local Open Scope list_scope.

(** ** Python values used by the script *)

(** The exceptions that can travel through the script.  All of them derive
    from Python's [Exception], which is what [except Exception] catches. *)
Inductive exn : Type :=
| IndexError (msg : string)
| KeyError (key : string)
| TypeError (msg : string)
| JSONDecodeError
| RequestException (msg : string)
| ClientError (code : string).

#[global] Instance exn_eq_dec : EqDecision exn.
Proof. solve_decision. Defined.

(** [sorted(xs)] on a list of [str]: ascending, by code point. *)
Definition sorted (xs : list string) : list string := merge_sort String.le xs.

(** [s.rstrip(c)] for a one-character strip set. *)
Fixpoint rstrip (c : ascii) (s : string) : string :=
  match s with
  | EmptyString => EmptyString
  | String a s' =>
      match rstrip c s' with
      | EmptyString => if decide (a = c) then EmptyString else String a EmptyString
      | r => String a r
      end
  end.

(** [s[-1]]: the last character, [IndexError] on the empty string. *)
Fixpoint last_char (s : string) : exn + ascii :=
  match s with
  | EmptyString => inl (IndexError "string index out of range")
  | String a EmptyString => inr a
  | String _ s' => last_char s'
  end.

(** [str(n)] for a non-negative [int]. *)
Definition str_of_nat (n : nat) : string :=
  NilEmpty.string_of_uint (Nat.to_uint n).

Fixpoint zeros (k : nat) : string :=
  match k with
  | O => EmptyString
  | S k' => String "0"%char (zeros k')
  end.

(** ["%0<width>d" % n] for a non-negative [n]: the decimal digits, padded on
    the left with zeros up to the minimum field width. *)
Definition format_0d (width n : nat) : string :=
  let digits := str_of_nat n in
  zeros (width - String.length digits) +:+ digits.

(** [enumerate(xs)] *)
Fixpoint enumerate_from {A} (i : nat) (xs : list A) : list (nat * A) :=
  match xs with
  | [] => []
  | x :: xs' => (i, x) :: enumerate_from (S i) xs'
  end.

Definition enumerate {A} (xs : list A) : list (nat * A) := enumerate_from 0 xs.

(** ** Wire data of the two services *)

(** Body of the Exhibitor answer once decoded: a JSON object whose members
    are arrays of address strings; [None] when the body is not JSON.  The
    status code is part of the answer but the script never looks at it. *)
Record http_response : Type := {
  status_code : nat;
  json_body : option (gmap string (list string))
}.

(** Dictionaries returned by the Route53 client.  An absent key is [None]. *)
Record resource_record : Type := { Value : option string }.

Record record_set : Type := {
  Name : option string;
  Type_ : option string;
  TTL : option Z;
  ResourceRecords : option (list resource_record)
}.

Record list_rrsets_response : Type := {
  ResourceRecordSets : option (list record_set)
}.

Record hosted_zone : Type := { Id : option string }.

Record list_zones_response : Type := {
  HostedZones : option (list hosted_zone)
}.

(** One entry of [ChangeBatch['Changes']]. *)
Record change : Type := {
  Action : string;
  ch_Name : string;
  ch_Type : string;
  ch_TTL : Z;
  ch_ResourceRecords : list resource_record
}.

Record change_batch : Type := { Changes : list change }.

#[global] Instance resource_record_eq_dec : EqDecision resource_record.
Proof. solve_decision. Defined.
#[global] Instance record_set_eq_dec : EqDecision record_set.
Proof. solve_decision. Defined.
#[global] Instance change_eq_dec : EqDecision change.
Proof. solve_decision. Defined.
#[global] Instance change_batch_eq_dec : EqDecision change_batch.
Proof. solve_decision. Defined.

(** ** The outside world *)

(** The four external operations the script performs.  Each one may raise
    and may change the world. *)
Class Externals (W : Type) : Type := {
  requests_get :
    string -> list (string * string) -> W -> (exn + http_response) * W;
  list_hosted_zones_by_name :
    string -> W -> (exn + list_zones_response) * W;
  list_resource_record_sets :
    option string -> string -> string -> W -> (exn + list_rrsets_response) * W;
  change_resource_record_sets :
    option string -> change_batch -> W -> (exn + unit) * W
}.

(** What an observer of a run sees. *)
Inductive log_arg : Type :=
| LStr (s : string)
| LList (xs : list string)
| LExn (e : exn).

Inductive event : Type :=
| EvGet (url : string) (headers : list (string * string))
| EvListZones (dns_name : string)
| EvListRecords (zone_id : option string) (start_name start_type : string)
| EvChange (zone_id : option string) (batch : change_batch)
| EvLog (level : Z) (msg : string) (args : list log_arg).

#[global] Instance log_arg_eq_dec : EqDecision log_arg.
Proof. solve_decision. Defined.
#[global] Instance event_eq_dec : EqDecision event.
Proof. solve_decision. Defined.

Definition INFO : Z := 20.
Definition ERROR : Z := 40.

(** ** The monad of the script *)

Record state (W : Type) : Type := mkState { world : W; trace : list event }.
Arguments mkState {W} _ _.
Arguments world {W} _.
Arguments trace {W} _.

Definition M (W A : Type) : Type := state W -> (exn + A) * state W.

Definition ret {W A} (a : A) : M W A := fun st => (inr a, st).

Definition raise {W A} (e : exn) : M W A := fun st => (inl e, st).

Definition bind {W A B} (m : M W A) (k : A -> M W B) : M W B :=
  fun st =>
    match m st with
    | (inl e, st') => (inl e, st')
    | (inr a, st') => k a st'
    end.

Definition try_except {W A} (body : M W A) (handler : exn -> M W A) : M W A :=
  fun st =>
    match body st with
    | (inl e, st') => handler e st'
    | (inr a, st') => (inr a, st')
    end.

Definition lift {W A} (r : exn + A) : M W A :=
  match r with
  | inl e => raise e
  | inr a => ret a
  end.

Definition emit {W} (ev : event) : M W unit :=
  fun st => (inr tt, mkState (world st) (trace st ++ [ev])).

(** An external call: the call is recorded, then the world answers. *)
Definition call {W A} (ev : event) (op : W -> (exn + A) * W) : M W A :=
  fun st =>
    let '(r, w') := op (world st) in
    (r, mkState w' (trace st ++ [ev])).

Declare Scope prog_scope.
Delimit Scope prog_scope with prog.
Notation "x <- c ;; k" := (bind c (fun x => k))
  (at level 100, c at next level, right associativity) : prog_scope.
Notation "c ;;; k" := (bind c (fun _ => k))
  (at level 100, right associativity) : prog_scope.

(** [for x in xs: body(x)] *)
Fixpoint for_each {W A} (xs : list A) (body : A -> M W unit) : M W unit :=
  match xs with
  | [] => ret tt
  | x :: xs' => bind (body x) (fun _ => for_each xs' body)
  end.

(** Log calls are recorded as they are made; the threshold set from
    [--verbosity] only decides what the handler prints. *)
Definition logging_info {W} (msg : string) (args : list log_arg) : M W unit :=
  emit (EvLog INFO msg args).

(** [logging.exception(e)]: level ERROR, the exception is the message. *)
Definition logging_exception {W} (e : exn) : M W unit :=
  emit (EvLog ERROR "%s" [LExn e]).

(** ** The script *)

(** The namespace returned by [parse_args]. *)
Record args : Type := {
  zone : string;
  rr : string;
  exhibitor_url : string;
  ttl : Z;
  verbosity : Z
}.

(** [response.json()] *)
Definition json (response : http_response) : exn + gmap string (list string) :=
  match json_body response with
  | Some body => inr body
  | None => inl JSONDecodeError
  end.

(** [d[key]] on a dict *)
Definition getitem (d : gmap string (list string)) (key : string)
  : exn + list string :=
  match d !! key with
  | Some v => inr v
  | None => inl (KeyError key)
  end.

(** [zone.get('HostedZones')[0].get('Id')] (line 48) *)
Definition first_zone_id (zone_ : list_zones_response) : exn + option string :=
  match HostedZones zone_ with
  | None => inl (TypeError "'NoneType' object is not subscriptable")
  | Some [] => inl (IndexError "list index out of range")
  | Some (z :: _) => inr (Id z)
  end.

(** Lines 50-53: the name of the aggregate record. *)
Definition aggregate_fqdn (rr_ zone_ : string) : exn + string :=
  match last_char rr_ with
  | inl e => inl e
  | inr c =>
      if decide (c = "."%char) then inr rr_
      else inr (rr_ +:+ "." +:+ zone_ +:+ ".")
  end.

(** Line 75: ["zk%02d.%s." % (idx, args.zone)] *)
Definition member_fqdn (idx : nat) (zone_ : string) : string :=
  "zk" +:+ format_0d 2 idx +:+ "." +:+ zone_ +:+ ".".

(** The loop of lines 124-132, on the decoded answer. *)
Definition collect_values (target_fqdn : string) (res : list_rrsets_response)
  : list string :=
  fold_left
    (fun resource_records record_set =>
       let record_set_name := default "" (Name record_set) in
       if decide (record_set_name ≠ target_fqdn) then resource_records
       else
         fold_left
           (fun resource_records record =>
              match Value record with
              | Some value => resource_records ++ [value]
              | None => resource_records
              end)
           (default [] (ResourceRecords record_set))
           resource_records)
    (default [] (ResourceRecordSets res))
    [].

(** The UPSERT batch of lines 104-114. *)
Definition upsert_batch (target_fqdn : string)
    (resource_records : list resource_record) (ttl_ : Z) : change_batch :=
  {| Changes :=
       [ {| Action := "UPSERT";
            ch_Name := target_fqdn;
            ch_Type := "A";
            ch_TTL := ttl_;
            ch_ResourceRecords := resource_records |} ] |}.

Section Script.
Context {W : Type} `{!Externals W}.
Local Open Scope prog_scope.

(** Lines 34-38.  [''.join([a, b])] is the concatenation. *)
Definition get_zk_servers (exhibitor_url_ : string) : M W (list string) :=
  let headers := [("accept", "application/json")] in
  let url := rstrip "/" exhibitor_url_ +:+ "/exhibitor/v1/cluster/list" in
  response <- call (EvGet url headers) (requests_get url headers) ;;
  body <- lift (json response) ;;
  servers <- lift (getitem body "servers") ;;
  ret (sorted servers).

(** Lines 95-117.  The whole body is inside [try]; the handler logs and the
    function returns [None]. *)
Definition upsert_record (hosted_zone_id : option string)
    (target_fqdn : string) (ip_list : list string) (ttl_ : Z) : M W unit :=
  try_except
    (let resource_records :=
       fold_left (fun acc value => acc ++ [ {| Value := Some value |} ])
                 ip_list [] in
     match resource_records with
     | [] => ret tt
     | _ :: _ =>
         let batch := upsert_batch target_fqdn resource_records ttl_ in
         call (EvChange hosted_zone_id batch)
              (change_resource_record_sets hosted_zone_id batch)
     end)
    (fun e => logging_exception e).

(** Lines 120-134. *)
Definition fetch_existing_resource_records (hosted_zone_id : option string)
    (target_fqdn : string) : M W (list string) :=
  res <- call (EvListRecords hosted_zone_id target_fqdn "A")
              (list_resource_record_sets hosted_zone_id target_fqdn "A") ;;
  ret (sorted (collect_values target_fqdn res)).

(** Lines 62-71 and 81-90: the same block, written twice in [main]; the
    two copies differ in the message of the last branch only. *)
Definition reconcile (hosted_zone_id : option string) (target_fqdn : string)
    (desired existing_record : list string) (ttl_ : Z) (create_msg : string)
  : M W unit :=
  match existing_record with
  | _ :: _ =>
      logging_info "Existing record: %s" [LList existing_record] ;;;
      if decide (sorted desired ≠ sorted existing_record) then
        logging_info "Updating record to match" [] ;;;
        upsert_record hosted_zone_id target_fqdn desired ttl_
      else
        logging_info "Up to date." []
  | [] =>
      logging_info create_msg [] ;;;
      upsert_record hosted_zone_id target_fqdn desired ttl_
  end.

(** Lines 74-90: the body of the loop over the members. *)
Definition member_body (a : args) (hosted_zone_id : option string)
    (item : nat * string) : M W unit :=
  let '(i, zkserver_ip) := item in
  let idx := i + 1 in
  let target_fqdn := member_fqdn idx (zone a) in
  logging_info ("target_fqdn: " +:+ target_fqdn +:+ " ip: " +:+ zkserver_ip) [] ;;;
  let ip_list := [zkserver_ip] in
  existing_record <- fetch_existing_resource_records hosted_zone_id target_fqdn ;;
  reconcile hosted_zone_id target_fqdn ip_list existing_record (ttl a)
            ("Creating new record: " +:+ target_fqdn).

(** Lines 73-90. *)
Definition member_loop (a : args) (hosted_zone_id : option string)
    (exhibitor_list : list string) : M W unit :=
  for_each (enumerate (sorted exhibitor_list)) (member_body a hosted_zone_id).

(** Lines 41-92.  [parse_args], [logging.basicConfig] and the construction
    of the client call neither service and are left out; [main] starts from
    the parsed arguments. *)
Definition main (a : args) : M W unit :=
  zone_ <- call (EvListZones (zone a)) (list_hosted_zones_by_name (zone a)) ;;
  hosted_zone_id <- lift (first_zone_id zone_) ;;
  target_fqdn <- lift (aggregate_fqdn (rr a) (zone a)) ;;
  logging_info "Managing route53 record: %s" [LStr target_fqdn] ;;;
  exhibitor_list <- get_zk_servers (exhibitor_url a) ;;
  logging_info "Exhibitor cluster: %s" [LList exhibitor_list] ;;;
  existing_record <- fetch_existing_resource_records hosted_zone_id target_fqdn ;;
  reconcile hosted_zone_id target_fqdn exhibitor_list existing_record (ttl a)
            "Creating new record." ;;;
  member_loop a hosted_zone_id exhibitor_list ;;;
  logging_info "Done!" [].

End Script.

(** A run of the script from the command line: a fresh trace. *)
Definition run_main {W} `{!Externals W} (a : args) (w : W)
  : (exn + unit) * state W :=
  main a (mkState w []).

(** ** Observations on a trace *)

(** The record names read through [list_resource_record_sets]. *)
Definition listed_names (tr : list event) : list string :=
  omap (fun ev => match ev with
                  | EvListRecords _ n _ => Some n
                  | _ => None
                  end) tr.

(** The change batches submitted through [change_resource_record_sets]. *)
Definition submitted (tr : list event) : list (option string * change_batch) :=
  omap (fun ev => match ev with
                  | EvChange z b => Some (z, b)
                  | _ => None
                  end) tr.

(** Calls that leave the process, as opposed to log calls. *)
Definition is_external (ev : event) : bool :=
  match ev with
  | EvLog _ _ _ => false
  | _ => true
  end.

Definition external_calls (tr : list event) : list event :=
  filter (fun ev => is_external ev = true) tr.

(** The values carried by a list of [{'Value': v}] dictionaries. *)
Definition values_of (rrs : list resource_record) : list string :=
  omap Value rrs.

Definition wrap_values (ip_list : list string) : list resource_record :=
  map (fun value => {| Value := Some value |}) ip_list.

(** ** A reference provider

    An executable stand-in for the two services, used to run the script on
    concrete inputs.  The zone holds one record set per name; listing is a
    range scan from the start name onwards; an UPSERT replaces the record
    set of its name.  The answers of the zone lookup and of the ensemble
    endpoint are fixed in the world, and failures of the record calls can be
    switched on. *)
Module Sim.

Record world : Type := mkWorld {
  zones_answer : exn + list_zones_response;
  cluster_answer : exn + http_response;
  records : list (string * (Z * list string));
  list_error : option exn;
  change_error : option exn
}.

Definition to_record_set (entry : string * (Z * list string)) : record_set :=
  {| Name := Some entry.1;
     Type_ := Some "A";
     TTL := Some entry.2.1;
     ResourceRecords := Some (wrap_values entry.2.2) |}.

Definition scan (start : string) (db : list (string * (Z * list string)))
  : list record_set :=
  map to_record_set (filter (fun entry => String.le start entry.1) db).

Fixpoint insert_by_name (entry : string * (Z * list string))
    (db : list (string * (Z * list string)))
  : list (string * (Z * list string)) :=
  match db with
  | [] => [entry]
  | e :: db' =>
      if decide (String.le entry.1 e.1) then entry :: e :: db'
      else e :: insert_by_name entry db'
  end.

Definition put (n : string) (v : Z * list string)
    (db : list (string * (Z * list string)))
  : list (string * (Z * list string)) :=
  insert_by_name (n, v) (filter (fun e => e.1 ≠ n) db).

Definition apply_change (db : list (string * (Z * list string))) (c : change)
  : list (string * (Z * list string)) :=
  if decide (Action c = "UPSERT")
  then put (ch_Name c) (ch_TTL c, values_of (ch_ResourceRecords c)) db
  else db.

Definition set_records (w : world) (db : list (string * (Z * list string)))
  : world :=
  {| zones_answer := zones_answer w;
     cluster_answer := cluster_answer w;
     records := db;
     list_error := list_error w;
     change_error := change_error w |}.

#[global] Instance externals : Externals world := {|
  requests_get _ _ w := (cluster_answer w, w);
  list_hosted_zones_by_name _ w := (zones_answer w, w);
  list_resource_record_sets _ start _ w :=
    match list_error w with
    | Some e => (inl e, w)
    | None =>
        (inr {| ResourceRecordSets := Some (scan start (records w)) |}, w)
    end;
  change_resource_record_sets _ batch w :=
    match change_error w with
    | Some e => (inl e, w)
    | None =>
        (inr tt, set_records w (fold_left apply_change (Changes batch) (records w)))
    end
|}.

(** An ensemble endpoint answering [{"servers": servers}]. *)
Definition cluster (servers : list string) : exn + http_response :=
  inr {| status_code := 200;
         json_body := Some {[ "servers" := servers ]} |}.

(** A zone lookup answering one hosted zone. *)
Definition one_zone (id : string) : exn + list_zones_response :=
  inr {| HostedZones := Some [ {| Id := Some id |} ] |}.

(** A healthy world: one zone, the given members and records. *)
Definition healthy_world (servers : list string)
    (db : list (string * (Z * list string))) : world :=
  {| zones_answer := one_zone "/hostedzone/Z1";
     cluster_answer := cluster servers;
     records := db;
     list_error := None;
     change_error := None |}.

(** The values held under a name, as a read reports them. *)
Definition values_at (db : list (string * (Z * list string))) (n : string)
  : list string :=
  flat_map (fun e => e.2.2) (filter (fun e => e.1 = n) db).

(** The worlds with the given answers that accept every change. *)
Definition steady (za : exn + list_zones_response) (ca : exn + http_response)
    (w : world) : Prop :=
  zones_answer w = za /\ cluster_answer w = ca /\ change_error w = None.

End Sim.
(** ** Declarative counterparts, after the specification's wording *)

(** The name a listed record set is compared by (line 125): an absent
    [Name] key reads as the empty string. *)
Definition record_set_name (rs : record_set) : string := default "" (Name rs).

Definition record_set_values (rs : record_set) : list string :=
  values_of (default [] (ResourceRecords rs)).

(** The record sets of an answer whose name is exactly the target. *)
Definition matching_sets (target_fqdn : string) (res : list_rrsets_response)
  : list record_set :=
  filter (fun rs => record_set_name rs = target_fqdn)
         (default [] (ResourceRecordSets res)).

(** All values across the matching record sets. *)
Definition matching_values (target_fqdn : string) (res : list_rrsets_response)
  : list string :=
  flat_map record_set_values (matching_sets target_fqdn res).

(** The URL and the headers of the request of [get_zk_servers]. *)
Definition exhibitor_endpoint (exhibitor_url_ : string) : string :=
  rstrip "/" exhibitor_url_ +:+ "/exhibitor/v1/cluster/list".

Definition accept_json : list (string * string) :=
  [("accept", "application/json")].

(** Reading a rank back from its digits. *)
Definition digits_value (s : string) : option nat :=
  Nat.of_uint <$> NilEmpty.uint_of_string s.

(** A rank zero-padded to two digits. *)
Definition two_digits (idx : nat) : string :=
  if (idx <? 10)%nat then "0" +:+ str_of_nat idx else str_of_nat idx.

(** The members with their 1-based rank in ascending address order. *)
Definition ranked (members : list string) : list (nat * string) :=
  zip (seq 1 (length members)) (sorted members).

Section DriverSpec.
Context {W : Type} `{!Externals W}.
Local Open Scope prog_scope.

(** Reconcile and upsert one record: read it, decide, write. *)
Definition reconcile_record (hosted_zone_id : option string)
    (target_fqdn : string) (desired : list string) (ttl_ : Z)
    (create_msg : string) : M W unit :=
  existing_record <- fetch_existing_resource_records hosted_zone_id target_fqdn ;;
  reconcile hosted_zone_id target_fqdn desired existing_record ttl_ create_msg.

(** The per-member record of rank [idx]: name [zk<idx>.<zone>.], desired
    values the one address. *)
Definition reconcile_member (a : args) (hosted_zone_id : option string)
    (item : nat * string) : M W unit :=
  let fqdn := "zk" +:+ two_digits item.1 +:+ "." +:+ zone a +:+ "." in
  logging_info ("target_fqdn: " +:+ fqdn +:+ " ip: " +:+ item.2) [] ;;;
  reconcile_record hosted_zone_id fqdn [item.2] (ttl a)
                   ("Creating new record: " +:+ fqdn).

(** What is left of [main] once the zone, the aggregate name and the
    members are known (lines 60-92). *)
Definition main_tail (a : args) (hosted_zone_id : option string)
    (target_fqdn : string) (exhibitor_list : list string) : M W unit :=
  reconcile_record hosted_zone_id target_fqdn exhibitor_list (ttl a)
                   "Creating new record." ;;;
  member_loop a hosted_zone_id exhibitor_list ;;;
  logging_info "Done!" [].

End DriverSpec.

(** The trace of [main] up to the reading of the first record. *)
Definition setup_trace (a : args) (target_fqdn : string)
    (exhibitor_list : list string) : list event :=
  [EvListZones (zone a);
   EvLog INFO "Managing route53 record: %s" [LStr target_fqdn];
   EvGet (exhibitor_endpoint (exhibitor_url a)) accept_json;
   EvLog INFO "Exhibitor cluster: %s" [LList exhibitor_list]].

(** Worlds, closed under upserts, in which every record read succeeds. *)
Definition reads_succeed {W : Type} `{!Externals W} (I : W -> Prop) : Prop :=
  (forall z n w, I w ->
     exists res w', list_resource_record_sets z n "A" w = (inr res, w') /\ I w') /\
  (forall z b w, I w -> I (change_resource_record_sets z b w).2).

(** The names of the per-member records of an ensemble of [n] members. *)
Definition member_names (a : args) (n : nat) : list string :=
  map (fun idx => member_fqdn idx (zone a)) (seq 1 n).

(** Whether reconciling [desired] against [existing] submits an upsert: the
    create and update branches do, unless the writer's guard stops them. *)
Definition submits (desired existing : list string) : bool :=
  bool_decide (desired <> []) &&
  (bool_decide (existing = []) || bool_decide (sorted desired <> sorted existing)).

(** A submitted batch that only upserts non-empty value lists. *)
Definition safe_submission (s : option string * change_batch) : Prop :=
  Forall (fun c => Action c = "UPSERT" /\ ch_ResourceRecords c <> []) (Changes s.2).

Definition safe_trace (tr : list event) : Prop :=
  Forall safe_submission (submitted tr).

(** ** Providers that keep what they are told *)

(** A provider is faithful on its healthy worlds when there is a notion of
    the values stored under a name such that reads report it and leave it
    alone, and an UPSERT succeeds, sets it for its own name and leaves the
    other names alone. *)
Class Faithful (W : Type) `{!Externals W} : Type := {
  healthy : W -> Prop;
  stored : W -> option string -> string -> list string;
  faithful_read z n w r w' :
    healthy w ->
    list_resource_record_sets z n "A" w = (r, w') ->
    healthy w' /\
    (forall z' n', stored w' z' n' = stored w z' n') /\
    (forall res, r = inr res -> sorted (collect_values n res) = stored w z n);
  faithful_upsert z n ips t w r w' :
    healthy w ->
    ips <> [] ->
    change_resource_record_sets z (upsert_batch n (wrap_values ips) t) w = (r, w') ->
    healthy w' /\
    r = inr tt /\
    stored w' z n = sorted ips /\
    (forall n', n' <> n -> stored w' z n' = stored w z n');
  faithful_get u h w r w' :
    healthy w ->
    requests_get u h w = (r, w') ->
    healthy w' /\ (forall z' n', stored w' z' n' = stored w z' n');
  faithful_zones d w r w' :
    healthy w ->
    list_hosted_zones_by_name d w = (r, w') ->
    healthy w' /\ (forall z' n', stored w' z' n' = stored w z' n')
}.

(** Unchanged surroundings between runs: the zone lookup and the ensemble
    endpoint answer the same in every healthy world. *)
Definition unchanged_membership (W : Type) `{!Externals W} `{!Faithful W} : Prop :=
  (forall u h w1 w2, healthy w1 -> healthy w2 ->
     (requests_get u h w1).1 = (requests_get u h w2).1) /\
  (forall d w1 w2, healthy w1 -> healthy w2 ->
     (list_hosted_zones_by_name d w1).1 = (list_hosted_zones_by_name d w2).1).

(** A record needs no write: nothing is desired for it, or it already
    stores the desired values. *)
Definition settled {W : Type} `{!Externals W} `{!Faithful W}
    (w : W) (z : option string) (n : string) (desired : list string) : Prop :=
  desired = [] \/ stored w z n = sorted desired.

(** The per-member records of ranks [k+1], [k+2], ... need no write. *)
Definition settled_members {W : Type} `{!Externals W} `{!Faithful W}
    (w : W) (z : option string) (a : args) (k : nat) (xs : list string) : Prop :=
  forall i x, xs !! i = Some x ->
              settled w z (member_fqdn (k + i + 1) (zone a)) [x].

(** The number of upserts submitted to the provider during a run. *)
Definition upsert_count (tr : list event) : nat := length (submitted tr).

(** ** Inputs used in the examples *)

Definition args_zk : args :=
  {| zone := "example.com"; rr := "zk"; exhibitor_url := "http://exhibitor/";
     ttl := 300; verbosity := 20 |}.

Definition args_empty_rr : args :=
  {| zone := "example.com"; rr := ""; exhibitor_url := "http://exhibitor/";
     ttl := 300; verbosity := 20 |}.

Definition zone_zk01_zk10 : list (string * (Z * list string)) :=
  [("zk01.example.com.", (300%Z, ["10.0.0.9"; "10.0.0.1"]));
   ("zk10.example.com.", (300%Z, ["10.0.0.7"]))].

Definition unreachable_world : Sim.world :=
  {| Sim.zones_answer := Sim.one_zone "/hostedzone/Z1";
     Sim.cluster_answer := inl (RequestException "connection refused");
     Sim.records := [];
     Sim.list_error := None;
     Sim.change_error := None |}.

(** A provider that refuses every change. *)
Definition refusing_world : Sim.world :=
  {| Sim.zones_answer := Sim.one_zone "/hostedzone/Z1";
     Sim.cluster_answer := Sim.cluster ["10.0.0.2"; "10.0.0.1"];
     Sim.records := [];
     Sim.list_error := None;
     Sim.change_error := Some (ClientError "Throttling") |}.

(** An aggregate record named like the first per-member record. *)
Definition args_zk01 : args :=
  {| zone := "example.com"; rr := "zk01"; exhibitor_url := "http://exhibitor/";
     ttl := 300; verbosity := 20 |}.

Definition two_member_world : Sim.world :=
  Sim.healthy_world ["10.0.0.2"; "10.0.0.1"] [].

(** Answers of the list call for one name: [answer_b] has the record sets
    of [answer_a] under other types and TTLs, with an entry that lacks its
    [Value] key; [answer_c] lists the record sets of [answer_a] in the other
    order. *)
Definition answer_a : list_rrsets_response :=
  {| ResourceRecordSets :=
       Some [ {| Name := Some "zk.example.com."; Type_ := Some "A";
                 TTL := Some 300%Z;
                 ResourceRecords := Some [ {| Value := Some "10.0.0.2" |} ] |};
              {| Name := Some "zk.example.com."; Type_ := Some "A";
                 TTL := Some 300%Z;
                 ResourceRecords := Some [ {| Value := Some "10.0.0.1" |} ] |} ] |}.

Definition answer_b : list_rrsets_response :=
  {| ResourceRecordSets :=
       Some [ {| Name := Some "zk.example.com."; Type_ := Some "AAAA";
                 TTL := Some 60%Z;
                 ResourceRecords :=
                   Some [ {| Value := None |}; {| Value := Some "10.0.0.2" |} ] |};
              {| Name := Some "zk.example.com."; Type_ := None;
                 TTL := None;
                 ResourceRecords := Some [ {| Value := Some "10.0.0.1" |} ] |} ] |}.

Definition answer_c : list_rrsets_response :=
  {| ResourceRecordSets :=
       Some [ {| Name := Some "zk.example.com."; Type_ := Some "A";
                 TTL := Some 300%Z;
                 ResourceRecords := Some [ {| Value := Some "10.0.0.1" |} ] |};
              {| Name := Some "zk.example.com."; Type_ := Some "A";
                 TTL := Some 300%Z;
                 ResourceRecords := Some [ {| Value := Some "10.0.0.2" |} ] |} ] |}.

(** A provider account without any hosted zone. *)
Definition no_zone_world : Sim.world :=
  {| Sim.zones_answer := inr {| HostedZones := Some [] |};
     Sim.cluster_answer := Sim.cluster ["10.0.0.1"];
     Sim.records := [];
     Sim.list_error := None;
     Sim.change_error := None |}.

(** An aggregate record named like a per-member record of a rank that the
    two members do not reach. *)
Definition args_zk05 : args :=
  {| zone := "example.com"; rr := "zk05"; exhibitor_url := "http://exhibitor/";
     ttl := 300; verbosity := 20 |}.

Definition one_member_world : Sim.world := Sim.healthy_world ["10.0.0.1"] [].

(** ** Further notions for the properties of the script *)

(** [k] copies of a character, as a string. *)
Fixpoint repeat_char (c : ascii) (k : nat) : string :=
  match k with
  | O => EmptyString
  | S k' => String c (repeat_char c k')
  end.

(** What the reader looks at in a record set: its name and its values. *)
Definition record_set_view (rs : record_set) : string * list string :=
  (record_set_name rs, record_set_values rs).

(** Every change in a trace is an UPSERT batch of the script with the given
    TTL, and the last external call before it is the read of the same record
    in the same zone. *)
Definition writes_follow_reads (ttl_ : Z) (tr : list event) : Prop :=
  forall tr1 z b tr2,
    tr = tr1 ++ EvChange z b :: tr2 ->
    exists n ips,
      b = upsert_batch n (wrap_values ips) ttl_ /\
      ips <> [] /\
      last (external_calls tr1) = Some (EvListRecords z n "A").

(** A record call made in the zone [z], reads starting at type A. *)
Definition in_zone (z : option string) (ev : event) : Prop :=
  match ev with
  | EvListRecords z' _ t => z' = z /\ t = "A"
  | EvChange z' _ => z' = z
  | _ => True
  end.

(** [y] sorts strictly before [x]. *)
Definition sorts_before (x y : string) : Prop := String.le y x /\ y <> x.

#[global] Instance sorts_before_dec (x y : string) : Decision (sorts_before x y).
Proof. unfold sorts_before. apply _. Defined.

(** A state with the closing log line of [main] added. *)
Definition finished {W : Type} (st : state W) : state W :=
  mkState (world st) (trace st ++ [EvLog INFO "Done!" []]).

(** The records of a run reconciled one after the other, the aggregate
    record and then one record per ranked member, each on the state the one
    before has left and whatever the one before has returned. *)
Definition reconcile_all {W : Type} `{!Externals W} (a : args)
    (z : option string) (fqdn : string) (servers : list string)
    (st : state W) : state W :=
  fold_left (fun st item => (reconcile_member a z item st).2)
            (ranked servers)
            (reconcile_record z fqdn (sorted servers) (ttl a)
                              "Creating new record." st).2.

(** ** A scripted provider

    A provider without state that answers every call from a fixed script:
    the answer of a read depends on the name asked for only. *)
Module Scripted.

Record world : Type := mkWorld {
  zones_answer : exn + list_zones_response;
  cluster_answer : exn + http_response;
  read_answer : string -> exn + list_rrsets_response;
  change_answer : exn + unit
}.

#[global] Instance externals : Externals world := {|
  requests_get _ _ w := (cluster_answer w, w);
  list_hosted_zones_by_name _ w := (zones_answer w, w);
  list_resource_record_sets _ start _ w := (read_answer w start, w);
  change_resource_record_sets _ _ w := (change_answer w, w)
|}.

(** Every read answers [res]. *)
Definition answering (res : list_rrsets_response) : world :=
  {| zones_answer := Sim.one_zone "/hostedzone/Z1";
     cluster_answer := Sim.cluster [];
     read_answer := fun _ => inr res;
     change_answer := inr tt |}.

(** The read of [zk02.example.com.] is refused, every other record is
    absent. *)
Definition refusing_zk02 : world :=
  {| zones_answer := Sim.one_zone "/hostedzone/Z1";
     cluster_answer := Sim.cluster ["10.0.0.3"; "10.0.0.2"; "10.0.0.1"];
     read_answer := fun n =>
       if decide (n = "zk02.example.com.") then inl (ClientError "Throttling")
       else inr {| ResourceRecordSets := Some [] |};
     change_answer := inr tt |}.

End Scripted.

(** ** Facts about [sorted] *)

Lemma sorted_StronglySorted (xs : list string) :
  StronglySorted String.le (sorted xs).
Proof. apply (StronglySorted_merge_sort String.le). Qed.

Lemma sorted_Permutation (xs : list string) : sorted xs ≡ₚ xs.
Proof. apply merge_sort_Permutation. Qed.

Lemma sorted_unique (xs ys : list string) :
  StronglySorted String.le ys -> xs ≡ₚ ys -> sorted xs = ys.
Proof.
  intros Hs Hp. apply (StronglySorted_unique String.le); auto.
  - apply sorted_StronglySorted.
  - rewrite sorted_Permutation. exact Hp.
Qed.

Lemma sorted_Permutation_eq (xs ys : list string) :
  xs ≡ₚ ys -> sorted xs = sorted ys.
Proof.
  intros Hp. apply sorted_unique.
  - apply sorted_StronglySorted.
  - rewrite Hp. symmetry. apply sorted_Permutation.
Qed.

Lemma sorted_idem (xs : list string) : sorted (sorted xs) = sorted xs.
Proof. apply sorted_Permutation_eq, sorted_Permutation. Qed.

Lemma sorted_nil_iff (xs : list string) : sorted xs = [] <-> xs = [].
Proof.
  split.
  - intros H. apply Permutation_nil_r. rewrite <- H. symmetry.
    apply sorted_Permutation.
  - intros ->. reflexivity.
Qed.

Lemma sorted_length (xs : list string) : length (sorted xs) = length xs.
Proof. apply Permutation_length, sorted_Permutation. Qed.

(** ** Facts about the monad *)

Lemma bind_inr_inv {W A B} (m : M W A) (k : A -> M W B) st b st' :
  bind m k st = (inr b, st') ->
  exists a st1, m st = (inr a, st1) /\ k a st1 = (inr b, st').
Proof.
  unfold bind. destruct (m st) as [[e|a] st1]; intros H.
  - discriminate.
  - eauto.
Qed.

Lemma bind_inr {W A B} (m : M W A) (k : A -> M W B) st a st1 :
  m st = (inr a, st1) -> bind m k st = k a st1.
Proof. unfold bind. intros ->. reflexivity. Qed.

Lemma bind_inl {W A B} (m : M W A) (k : A -> M W B) st e st1 :
  m st = (inl e, st1) -> bind m k st = (inl e, st1).
Proof. unfold bind. intros ->. reflexivity. Qed.

Lemma fold_left_wrap (ip_list : list string) (acc : list resource_record) :
  fold_left (fun acc value => acc ++ [ {| Value := Some value |} ]) ip_list acc
  = acc ++ wrap_values ip_list.
Proof.
  revert acc. induction ip_list as [|v l IH]; intros acc; simpl.
  - by rewrite app_nil_r.
  - rewrite IH. by rewrite <- app_assoc.
Qed.

Lemma values_of_wrap (ip_list : list string) :
  values_of (wrap_values ip_list) = ip_list.
Proof.
  induction ip_list as [|v l IH]; simpl; [done|].
  unfold values_of in *. simpl. by rewrite IH.
Qed.

(** ** The DNS writer, [upsert_record] *)

Section Writer.
Context {W : Type} `{!Externals W}.

Lemma upsert_record_nil z n ttl_ (st : state W) :
  upsert_record z n [] ttl_ st = (inr tt, st).
Proof. reflexivity. Qed.

(** What the writer does with a non-empty list, by the provider's answer. *)
Lemma upsert_record_cons z n ip_list ttl_ (st : state W) :
  ip_list <> [] ->
  let batch := upsert_batch n (wrap_values ip_list) ttl_ in
  upsert_record z n ip_list ttl_ st =
    match change_resource_record_sets z batch (world st) with
    | (inr _, w') => (inr tt, mkState w' (trace st ++ [EvChange z batch]))
    | (inl e, w') =>
        (inr tt, mkState w' ((trace st ++ [EvChange z batch])
                               ++ [EvLog ERROR "%s" [LExn e]]))
    end.
Proof.
  intros Hne. unfold upsert_record, try_except.
  rewrite fold_left_wrap. simpl.
  destruct ip_list as [|v l]; [done|]. simpl.
  unfold call. simpl.
  destruct (change_resource_record_sets _ _ _) as [[e|[]] w']; reflexivity.
Qed.

Lemma upsert_record_returns z n ip_list ttl_ (st : state W) :
  exists st', upsert_record z n ip_list ttl_ st = (inr tt, st').
Proof.
  destruct ip_list as [|v l].
  - eexists. apply upsert_record_nil.
  - rewrite upsert_record_cons by done. simpl.
    destruct (change_resource_record_sets _ _ _) as [[e|[]] w']; eauto.
Qed.

End Writer.

(** ** The aggregate record name (lines 50-53) *)

Lemma last_char_snoc (p : string) (c : ascii) :
  last_char (p +:+ String c EmptyString) = inr c.
Proof.
  induction p as [|a p IH]; simpl; [done|].
  rewrite IH. by destruct p.
Qed.

Lemma last_char_inr (s : string) (c : ascii) :
  last_char s = inr c -> exists p, s = p +:+ String c EmptyString.
Proof.
  induction s as [|a s IH]; simpl; [done|].
  destruct s as [|b s'].
  - intros [= ->]. by exists EmptyString.
  - intros H. destruct (IH H) as [p Hp]. exists (String a p).
    rewrite Hp. reflexivity.
Qed.

Lemma last_char_nonempty (s : string) :
  s <> EmptyString -> exists c, last_char s = inr c.
Proof.
  induction s as [|a s IH]; [done|]. intros _.
  destruct s as [|b s'].
  - by exists a.
  - destruct IH as [c Hc]; [done|]. exists c. exact Hc.
Qed.

(** A name given with its trailing dot is used as it is. *)
Lemma aggregate_fqdn_absolute (p zone_ : string) :
  aggregate_fqdn (p +:+ ".") zone_ = inr (p +:+ ".").
Proof.
  unfold aggregate_fqdn. rewrite last_char_snoc.
  by rewrite decide_True.
Qed.

(** A non-empty name without trailing dot is put under the zone. *)
Lemma aggregate_fqdn_relative (rr_ zone_ : string) :
  rr_ <> EmptyString ->
  (forall p, rr_ <> p +:+ ".") ->
  aggregate_fqdn rr_ zone_ = inr (rr_ +:+ "." +:+ zone_ +:+ ".").
Proof.
  intros Hne Hdot. unfold aggregate_fqdn.
  destruct (last_char_nonempty rr_ Hne) as [c Hc]. rewrite Hc.
  destruct (decide (c = "."%char)) as [->|]; [|done].
  apply last_char_inr in Hc as [p Hp]. by destruct (Hdot p).
Qed.

Lemma aggregate_fqdn_total_iff (rr_ zone_ : string) :
  (exists fqdn, aggregate_fqdn rr_ zone_ = inr fqdn) <-> rr_ <> EmptyString.
Proof.
  split.
  - intros [fqdn H] ->. discriminate.
  - intros Hne. unfold aggregate_fqdn.
    destruct (last_char_nonempty rr_ Hne) as [c ->].
    destruct (decide _); eauto.
Qed.

(** C5, at the input where the code leaves the documented behaviour: an
    empty [--rr] does not end in a dot, so the help text of the flag and the
    claim both put it under the zone as ["." + zone + "."]; the code raises
    [IndexError] instead of producing any name. *)
Theorem aggregate_fqdn_empty_rr_raises (zone_ : string) :
  aggregate_fqdn "" zone_ = inl (IndexError "string index out of range") /\
  aggregate_fqdn "" zone_ <> inr ("" +:+ "." +:+ zone_ +:+ ".").
Proof. split; [reflexivity | discriminate]. Qed.

(** The two examples of the specification. *)
Example aggregate_fqdn_zk :
  aggregate_fqdn "zk" "prod.example.com" = inr "zk.prod.example.com.".
Proof. reflexivity. Qed.

Example aggregate_fqdn_custom :
  aggregate_fqdn "custom.example.com." "prod.example.com"
  = inr "custom.example.com.".
Proof. reflexivity. Qed.

(** ** An empty record name *)

(** C9 as worded fails: with an empty [--rr] the run does abort with an
    [IndexError], but the hosted-zone lookup, a call to the DNS provider, has
    completed by then; and when that lookup fails the run aborts with the
    lookup's error, not with an indexing error. *)
Lemma empty_rr_aborts_after_zone_lookup :
  (let r := run_main args_empty_rr (Sim.healthy_world ["10.0.0.1"] []) in
   r.1 = inl (IndexError "string index out of range") /\
   external_calls (trace r.2) = [EvListZones "example.com"]) /\
  (let w := {| Sim.zones_answer := inl (ClientError "AccessDenied");
               Sim.cluster_answer := Sim.cluster ["10.0.0.1"];
               Sim.records := [];
               Sim.list_error := None;
               Sim.change_error := None |} in
   (run_main args_empty_rr w).1 = inl (ClientError "AccessDenied")).
Proof.
  split.
  - vm_compute. split; reflexivity.
  - vm_compute. reflexivity.
Qed.

(** C9, amended: when [--rr] is empty and the hosted-zone lookup has
    succeeded, the run aborts with an [IndexError] raised by the trailing-dot
    check; the zone lookup is the only external call made, so the ensemble
    is not queried and no record is read or written.  The name computation
    returns a name exactly for the non-empty record names. *)
Theorem empty_rr_aborts {W} `{!Externals W} (a : args) (w w1 : W)
    (zr : list_zones_response) (z : option string) :
  rr a = "" ->
  list_hosted_zones_by_name (zone a) w = (inr zr, w1) ->
  first_zone_id zr = inr z ->
  run_main a w = (inl (IndexError "string index out of range"),
                  mkState w1 [EvListZones (zone a)]) /\
  (forall rr_ zone_,
     (exists fqdn, aggregate_fqdn rr_ zone_ = inr fqdn) <-> rr_ <> "").
Proof.
  intros Hrr Hz Hid. split; [|apply aggregate_fqdn_total_iff].
  unfold run_main, main, bind, call. simpl. rewrite Hz. simpl.
  rewrite Hid. simpl. rewrite Hrr. reflexivity.
Qed.

Lemma empty_rr_aborts_witness :
  run_main args_empty_rr (Sim.healthy_world ["10.0.0.1"] [])
  = (inl (IndexError "string index out of range"),
     mkState (Sim.healthy_world ["10.0.0.1"] []) [EvListZones "example.com"]).
Proof.
  refine (proj1 (empty_rr_aborts args_empty_rr
                   (Sim.healthy_world ["10.0.0.1"] [])
                   (Sim.healthy_world ["10.0.0.1"] [])
                   {| HostedZones := Some [ {| Id := Some "/hostedzone/Z1" |} ] |}
                   (Some "/hostedzone/Z1") _ _ _)); reflexivity.
Defined.

(** ** Traces *)

Lemma submitted_app (t1 t2 : list event) :
  submitted (t1 ++ t2) = submitted t1 ++ submitted t2.
Proof. apply omap_app. Qed.

Lemma listed_names_app (t1 t2 : list event) :
  listed_names (t1 ++ t2) = listed_names t1 ++ listed_names t2.
Proof. apply omap_app. Qed.

Lemma external_calls_app (t1 t2 : list event) :
  external_calls (t1 ++ t2) = external_calls t1 ++ external_calls t2.
Proof. apply filter_app. Qed.

(** Push the trace observations through the events a step has appended. *)
Ltac trace_simpl :=
  rewrite ?listed_names_app, ?submitted_app, ?external_calls_app;
  simpl; rewrite ?app_nil_r.

(** ** The writer's guard and its error boundary *)

(** C6: called with an empty list the writer touches neither the provider
    nor the trace; called with a non-empty list it submits exactly one
    batch, holding one UPSERT of type A with the given name, TTL and
    values, and makes no other external call.  The batch is really handed
    to the provider: the world after the call is the one the provider's
    change operation leaves, and the trace grows by that one call, followed
    by the error log line when the provider raised. *)
Theorem upsert_record_guard {W} `{!Externals W}
    (z : option string) (n : string) (ttl_ : Z) (st : state W) :
  upsert_record z n [] ttl_ st = (inr tt, st) /\
  (forall ip_list, ip_list <> [] ->
     exists st',
       upsert_record z n ip_list ttl_ st = (inr tt, st') /\
       submitted (trace st') =
         submitted (trace st) ++
         [(z, {| Changes :=
                   [ {| Action := "UPSERT"; ch_Name := n; ch_Type := "A";
                        ch_TTL := ttl_;
                        ch_ResourceRecords := wrap_values ip_list |} ] |})] /\
       external_calls (trace st') =
         external_calls (trace st) ++
         [EvChange z (upsert_batch n (wrap_values ip_list) ttl_)] /\
       values_of (wrap_values ip_list) = ip_list /\
       world st' =
         (change_resource_record_sets z
            (upsert_batch n (wrap_values ip_list) ttl_) (world st)).2 /\
       trace st' =
         trace st ++
         EvChange z (upsert_batch n (wrap_values ip_list) ttl_)
         :: match (change_resource_record_sets z
                     (upsert_batch n (wrap_values ip_list) ttl_) (world st)).1
            with
            | inl e => [EvLog ERROR "%s" [LExn e]]
            | inr _ => []
            end).
Proof.
  split; [apply upsert_record_nil|].
  intros ip_list Hne. rewrite upsert_record_cons by done. cbv zeta.
  destruct (change_resource_record_sets _ _ _) as [[e|u] w'];
    eexists; (split; [reflexivity|]); cbn [fst snd world trace];
    rewrite ?submitted_app, ?external_calls_app; cbn [submitted external_calls];
    (split; [simpl; by rewrite ?app_nil_r|]);
    (split; [simpl; by rewrite ?app_nil_r|]);
    (split; [apply values_of_wrap|]);
    (split; [reflexivity|]);
    by rewrite <- ?app_assoc.
Qed.

(** On the reference provider the record is there after the call. *)
Lemma upsert_record_guard_witness :
  exists st',
    upsert_record (Some "/hostedzone/Z1") "zk01.example.com." ["10.0.0.1"] 300
      (mkState (Sim.healthy_world [] []) []) = (inr tt, st') /\
    submitted (trace st') =
      [(Some "/hostedzone/Z1",
        {| Changes :=
             [ {| Action := "UPSERT"; ch_Name := "zk01.example.com.";
                  ch_Type := "A"; ch_TTL := 300;
                  ch_ResourceRecords := [ {| Value := Some "10.0.0.1" |} ] |} ] |})] /\
    Sim.records (world st') = [("zk01.example.com.", (300%Z, ["10.0.0.1"]))].
Proof.
  destruct (proj2 (upsert_record_guard (Some "/hostedzone/Z1")
                     "zk01.example.com." 300
                     (mkState (Sim.healthy_world [] []) []))
                  ["10.0.0.1"] ltac:(discriminate))
    as (st' & Hrun & Hsub & _ & _ & Hworld & _).
  exists st'. split; [exact Hrun|]. split; [exact Hsub|].
  rewrite Hworld. reflexivity.
Defined.

(** ** The reconciler (lines 62-71 and 81-90) *)

Section Reconciler.
Context {W : Type} `{!Externals W}.

Lemma reconcile_create z n desired ttl_ msg (st : state W) :
  reconcile z n desired [] ttl_ msg st =
  upsert_record z n desired ttl_
    (mkState (world st) (trace st ++ [EvLog INFO msg []])).
Proof. reflexivity. Qed.

Lemma reconcile_up_to_date z n desired existing ttl_ msg (st : state W) :
  existing <> [] ->
  sorted desired = sorted existing ->
  reconcile z n desired existing ttl_ msg st =
  (inr tt,
   mkState (world st)
     ((trace st ++ [EvLog INFO "Existing record: %s" [LList existing]])
        ++ [EvLog INFO "Up to date." []])).
Proof.
  intros Hne Heq. destruct existing as [|x l]; [done|].
  unfold reconcile, bind, logging_info, emit. simpl.
  rewrite decide_False; [reflexivity|]. intros Hd. by apply Hd.
Qed.

Lemma reconcile_update z n desired existing ttl_ msg (st : state W) :
  existing <> [] ->
  sorted desired <> sorted existing ->
  reconcile z n desired existing ttl_ msg st =
  upsert_record z n desired ttl_
    (mkState (world st)
       ((trace st ++ [EvLog INFO "Existing record: %s" [LList existing]])
          ++ [EvLog INFO "Updating record to match" []])).
Proof.
  intros Hne Hd. destruct existing as [|x l]; [done|].
  unfold reconcile, bind, logging_info, emit. simpl.
  rewrite decide_True; [reflexivity|done].
Qed.

End Reconciler.

Lemma sorted_eq_iff_Permutation (xs ys : list string) :
  sorted xs = sorted ys <-> xs ≡ₚ ys.
Proof.
  split; [|apply sorted_Permutation_eq].
  intros H. rewrite <- (sorted_Permutation xs), <- (sorted_Permutation ys).
  by rewrite H.
Qed.

(** C1: the decision of the reconciler, read off its log line and its call
    of the writer.  With no existing value it logs the create message and
    runs the writer on the desired values; with existing values whose sorted
    sequence equals that of the desired ones it logs "Up to date." and does
    nothing else; with existing values whose sorted sequence differs it logs
    "Updating record to match" and runs the writer on the desired values.
    Equality of the sorted sequences is equality as multisets: duplicates
    count. *)
Theorem reconcile_decision {W} `{!Externals W}
    (z : option string) (n : string) (desired existing : list string)
    (ttl_ : Z) (msg : string) (st : state W) :
  (existing = [] ->
     reconcile z n desired existing ttl_ msg st =
     upsert_record z n desired ttl_
       (mkState (world st) (trace st ++ [EvLog INFO msg []]))) /\
  (existing <> [] -> sorted desired = sorted existing ->
     reconcile z n desired existing ttl_ msg st =
     (inr tt,
      mkState (world st)
        (trace st ++ [EvLog INFO "Existing record: %s" [LList existing];
                      EvLog INFO "Up to date." []]))) /\
  (existing <> [] -> sorted desired <> sorted existing ->
     reconcile z n desired existing ttl_ msg st =
     upsert_record z n desired ttl_
       (mkState (world st)
          (trace st ++ [EvLog INFO "Existing record: %s" [LList existing];
                        EvLog INFO "Updating record to match" []]))) /\
  (sorted desired = sorted existing <-> desired ≡ₚ existing).
Proof.
  split; [|split; [|split]].
  - intros ->. apply reconcile_create.
  - intros Hne Heq. rewrite reconcile_up_to_date by done.
    by rewrite <- app_assoc.
  - intros Hne Hd. rewrite reconcile_update by done.
    by rewrite <- app_assoc.
  - apply sorted_eq_iff_Permutation.
Qed.

(** The three cases of the specification, and a duplicate that is not
    collapsed, on the reference provider. *)
Lemma reconcile_decision_witness :
  let z := Some "/hostedzone/Z1" in
  let n := "zk01.example.com." in
  let st := mkState (Sim.healthy_world [] []) [] in
  reconcile z n ["1.1.1.1"] [] 300 "Creating new record." st =
    upsert_record z n ["1.1.1.1"] 300
      (mkState (world st) [EvLog INFO "Creating new record." []]) /\
  reconcile z n ["1.1.1.1"] ["1.1.1.1"] 300 "Creating new record." st =
    (inr tt,
     mkState (world st)
       [EvLog INFO "Existing record: %s" [LList ["1.1.1.1"]];
        EvLog INFO "Up to date." []]) /\
  reconcile z n ["1.1.1.1"] ["2.2.2.2"] 300 "Creating new record." st =
    upsert_record z n ["1.1.1.1"] 300
      (mkState (world st)
         [EvLog INFO "Existing record: %s" [LList ["2.2.2.2"]];
          EvLog INFO "Updating record to match" []]) /\
  reconcile z n ["1.1.1.1"] ["1.1.1.1"; "1.1.1.1"] 300 "Creating new record." st =
    upsert_record z n ["1.1.1.1"] 300
      (mkState (world st)
         [EvLog INFO "Existing record: %s" [LList ["1.1.1.1"; "1.1.1.1"]];
          EvLog INFO "Updating record to match" []]).
Proof.
  intros z n st. split; [|split; [|split]].
  - apply (proj1 (reconcile_decision z n ["1.1.1.1"] [] 300
                    "Creating new record." st)). reflexivity.
  - apply (proj1 (proj2 (reconcile_decision z n ["1.1.1.1"] ["1.1.1.1"] 300
                           "Creating new record." st)));
      [discriminate | reflexivity].
  - apply (proj1 (proj2 (proj2 (reconcile_decision z n ["1.1.1.1"] ["2.2.2.2"]
                                  300 "Creating new record." st))));
      [discriminate | vm_compute; discriminate].
  - apply (proj1 (proj2 (proj2 (reconcile_decision z n ["1.1.1.1"]
                                  ["1.1.1.1"; "1.1.1.1"]
                                  300 "Creating new record." st))));
      [discriminate | vm_compute; discriminate].
Defined.

(** ** The DNS reader, [fetch_existing_resource_records] *)

Lemma fold_left_values (rrs : list resource_record) (acc : list string) :
  fold_left (fun resource_records record =>
               match Value record with
               | Some value => resource_records ++ [value]
               | None => resource_records
               end) rrs acc
  = acc ++ values_of rrs.
Proof.
  revert acc. induction rrs as [|r rrs IH]; intros acc; simpl.
  - by rewrite app_nil_r.
  - rewrite IH. unfold values_of. simpl.
    destruct (Value r); simpl; [by rewrite <- app_assoc | done].
Qed.

Lemma fold_left_collect (target_fqdn : string) (sets : list record_set)
    (acc : list string) :
  fold_left
    (fun resource_records record_set =>
       let record_set_name := default "" (Name record_set) in
       if decide (record_set_name ≠ target_fqdn) then resource_records
       else
         fold_left
           (fun resource_records record =>
              match Value record with
              | Some value => resource_records ++ [value]
              | None => resource_records
              end)
           (default [] (ResourceRecords record_set))
           resource_records)
    sets acc
  = acc ++ flat_map record_set_values
             (filter (fun rs => record_set_name rs = target_fqdn) sets).
Proof.
  revert acc. induction sets as [|rs sets IH]; intros acc.
  - simpl. by rewrite app_nil_r.
  - simpl. rewrite filter_cons. fold (record_set_name rs).
    destruct (decide (record_set_name rs ≠ target_fqdn)) as [Hne|Heq].
    + rewrite decide_False by done. apply IH.
    + apply dec_stable in Heq. rewrite decide_True by done.
      rewrite fold_left_values, IH. simpl.
      by rewrite <- app_assoc.
Qed.

(** The loop with its [continue] is a filter on the name followed by the
    concatenation of the values. *)
Lemma collect_values_matching (target_fqdn : string) (res : list_rrsets_response) :
  collect_values target_fqdn res = matching_values target_fqdn res.
Proof.
  unfold collect_values, matching_values, matching_sets.
  by rewrite fold_left_collect.
Qed.

Lemma elem_of_matching_values (target_fqdn : string)
    (res : list_rrsets_response) (v : string) :
  v ∈ matching_values target_fqdn res <->
  exists rs, rs ∈ default [] (ResourceRecordSets res) /\
             record_set_name rs = target_fqdn /\
             v ∈ record_set_values rs.
Proof.
  unfold matching_values, matching_sets. split.
  - intros H. apply list_elem_of_In, in_flat_map in H as (rs & Hin & Hv).
    apply list_elem_of_In, list_elem_of_filter in Hin as [Hn Hin].
    exists rs. split; [done|]. split; [done|]. by apply list_elem_of_In.
  - intros (rs & Hin & Hn & Hv). apply list_elem_of_In, in_flat_map.
    exists rs. split; [|by apply list_elem_of_In].
    by apply list_elem_of_In, list_elem_of_filter.
Qed.

(** C2: whatever the list call answers, the reader returns the values of
    the record sets named exactly like the target, and of no other record
    set, in ascending order; with no such record set the result is the empty
    list, not an error. *)
Theorem fetch_existing_exact {W} `{!Externals W}
    (z : option string) (target_fqdn : string) (st : state W)
    (res : list_rrsets_response) (w' : W) :
  list_resource_record_sets z target_fqdn "A" (world st) = (inr res, w') ->
  exists values,
    fetch_existing_resource_records z target_fqdn st =
      (inr values,
       mkState w' (trace st ++ [EvListRecords z target_fqdn "A"])) /\
    values = sorted (matching_values target_fqdn res) /\
    StronglySorted String.le values /\
    values ≡ₚ matching_values target_fqdn res /\
    (forall v, v ∈ values <->
       exists rs, rs ∈ default [] (ResourceRecordSets res) /\
                  record_set_name rs = target_fqdn /\
                  v ∈ record_set_values rs) /\
    (matching_sets target_fqdn res = [] -> values = []).
Proof.
  intros Hlist. exists (sorted (matching_values target_fqdn res)).
  split; [|split; [done|split; [|split; [|split]]]].
  - unfold fetch_existing_resource_records, bind, call. rewrite Hlist.
    simpl. by rewrite collect_values_matching.
  - apply sorted_StronglySorted.
  - apply sorted_Permutation.
  - intros v. rewrite sorted_Permutation. apply elem_of_matching_values.
  - intros Hnone. unfold matching_values. by rewrite Hnone.
Qed.

(** The range scan from [zk01] returns [zk10] as well; the reader drops it. *)
Example scan_returns_other_names :
  map Name (Sim.scan "zk01.example.com." zone_zk01_zk10)
  = [Some "zk01.example.com."; Some "zk10.example.com."].
Proof. reflexivity. Qed.

Lemma fetch_existing_exact_witness :
  exists values,
    fetch_existing_resource_records (Some "/hostedzone/Z1") "zk01.example.com."
      (mkState (Sim.healthy_world [] zone_zk01_zk10) []) =
      (inr values,
       mkState (Sim.healthy_world [] zone_zk01_zk10)
         [EvListRecords (Some "/hostedzone/Z1") "zk01.example.com." "A"]) /\
    values = ["10.0.0.1"; "10.0.0.9"].
Proof.
  destruct (fetch_existing_exact (W:=Sim.world) (Some "/hostedzone/Z1") "zk01.example.com."
              (mkState (Sim.healthy_world [] zone_zk01_zk10) [])
              {| ResourceRecordSets :=
                   Some (Sim.scan "zk01.example.com." zone_zk01_zk10) |}
              (Sim.healthy_world [] zone_zk01_zk10))
    as (values & Hrun & Hval & _); [reflexivity|].
  exists values. split; [exact Hrun|].
  rewrite Hval. vm_compute. reflexivity.
Defined.

(** An absent record: the empty list. *)
Example fetch_absent_record :
  (fetch_existing_resource_records (Some "/hostedzone/Z1") "zk02.example.com."
     (mkState (Sim.healthy_world [] zone_zk01_zk10) [])).1 = inr [].
Proof. vm_compute. reflexivity. Qed.

(** ** The ensemble reader, [get_zk_servers] *)

Section EnsembleReader.
Context {W : Type} `{!Externals W}.

Lemma get_zk_servers_ok u (st : state W) resp w' body servers :
  requests_get (exhibitor_endpoint u) accept_json (world st) = (inr resp, w') ->
  json_body resp = Some body ->
  body !! "servers" = Some servers ->
  get_zk_servers u st =
    (inr (sorted servers),
     mkState w' (trace st ++ [EvGet (exhibitor_endpoint u) accept_json])).
Proof.
  intros Hget Hbody Hs. unfold get_zk_servers, bind, call.
  fold (exhibitor_endpoint u). fold accept_json. rewrite Hget. simpl.
  unfold json. rewrite Hbody. simpl. unfold getitem. rewrite Hs. reflexivity.
Qed.

Lemma get_zk_servers_fails u (st : state W) :
  (forall e w',
     requests_get (exhibitor_endpoint u) accept_json (world st) = (inl e, w') ->
     get_zk_servers u st =
       (inl e, mkState w' (trace st ++ [EvGet (exhibitor_endpoint u) accept_json]))) /\
  (forall resp w',
     requests_get (exhibitor_endpoint u) accept_json (world st) = (inr resp, w') ->
     json_body resp = None ->
     get_zk_servers u st =
       (inl JSONDecodeError,
        mkState w' (trace st ++ [EvGet (exhibitor_endpoint u) accept_json]))) /\
  (forall resp w' body,
     requests_get (exhibitor_endpoint u) accept_json (world st) = (inr resp, w') ->
     json_body resp = Some body ->
     body !! "servers" = None ->
     get_zk_servers u st =
       (inl (KeyError "servers"),
        mkState w' (trace st ++ [EvGet (exhibitor_endpoint u) accept_json]))).
Proof.
  unfold get_zk_servers, bind, call.
  fold (exhibitor_endpoint u). fold accept_json.
  split; [|split].
  - intros e w' ->. reflexivity.
  - intros resp w' -> Hb. simpl. unfold json. rewrite Hb. reflexivity.
  - intros resp w' body -> Hb Hs. simpl. unfold json. rewrite Hb. simpl.
    unfold getitem. rewrite Hs. reflexivity.
Qed.

(** An error of the ensemble reader leaves [main] as it is: nothing after
    the call runs. *)
Lemma main_aborts_with_reader (a : args) (w w1 : W) zr z fqdn e st2 :
  list_hosted_zones_by_name (zone a) w = (inr zr, w1) ->
  first_zone_id zr = inr z ->
  aggregate_fqdn (rr a) (zone a) = inr fqdn ->
  get_zk_servers (exhibitor_url a)
    (mkState w1 [EvListZones (zone a);
                 EvLog INFO "Managing route53 record: %s" [LStr fqdn]])
    = (inl e, st2) ->
  run_main a w = (inl e, st2).
Proof.
  intros Hz Hid Hf Hg. unfold run_main, main.
  unfold bind at 1. unfold call. simpl. rewrite Hz. simpl.
  unfold bind at 1. rewrite Hid. simpl.
  unfold bind at 1. rewrite Hf. simpl.
  unfold bind at 1. simpl.
  unfold bind at 1. rewrite Hg. reflexivity.
Qed.

Lemma reader_error_aborts_main (a : args) (w w1 : W) zr z fqdn e st2 :
  list_hosted_zones_by_name (zone a) w = (inr zr, w1) ->
  first_zone_id zr = inr z ->
  aggregate_fqdn (rr a) (zone a) = inr fqdn ->
  get_zk_servers (exhibitor_url a)
    (mkState w1 [EvListZones (zone a);
                 EvLog INFO "Managing route53 record: %s" [LStr fqdn]])
    = (inl e, st2) ->
  run_main a w = (inl e, st2) /\
  listed_names (trace st2) = [] /\ submitted (trace st2) = [].
Proof.
  intros Hz Hid Hfq Hg. split.
  - by apply main_aborts_with_reader with w1 zr z fqdn.
  - revert Hg. unfold get_zk_servers, bind, call. simpl.
    destruct (requests_get _ _ _) as [[e'|resp] w']; simpl.
    + intros [= <- <-]. done.
    + destruct (json resp) as [e'|body]; simpl; [intros [= <- <-]; done|].
      destruct (getitem body "servers") as [e'|servers]; simpl;
        [intros [= <- <-]; done | discriminate].
Qed.

End EnsembleReader.

(** C3: when the endpoint answers with a JSON object that has a [servers]
    member, the ensemble reader returns that list sorted ascending, a sorted
    rearrangement of the very same addresses.  When the request raises, when
    the body is not JSON, or when [servers] is missing, the reader raises
    (the request's error, [JSONDecodeError], [KeyError "servers"]), and an
    error of the reader is the outcome of [main]: the run stops there. *)
Theorem get_zk_servers_sorted_or_aborts {W} `{!Externals W}
    (u : string) (st : state W) :
  (forall resp w' body servers,
     requests_get (exhibitor_endpoint u) accept_json (world st) = (inr resp, w') ->
     json_body resp = Some body ->
     body !! "servers" = Some servers ->
     get_zk_servers u st =
       (inr (sorted servers),
        mkState w' (trace st ++ [EvGet (exhibitor_endpoint u) accept_json])) /\
     StronglySorted String.le (sorted servers) /\
     sorted servers ≡ₚ servers) /\
  (forall e w',
     requests_get (exhibitor_endpoint u) accept_json (world st) = (inl e, w') ->
     (get_zk_servers u st).1 = inl e) /\
  (forall resp w',
     requests_get (exhibitor_endpoint u) accept_json (world st) = (inr resp, w') ->
     json_body resp = None ->
     (get_zk_servers u st).1 = inl JSONDecodeError) /\
  (forall resp w' body,
     requests_get (exhibitor_endpoint u) accept_json (world st) = (inr resp, w') ->
     json_body resp = Some body ->
     body !! "servers" = None ->
     (get_zk_servers u st).1 = inl (KeyError "servers")) /\
  (forall (a : args) (w w1 : W) zr z fqdn e st2,
     exhibitor_url a = u ->
     list_hosted_zones_by_name (zone a) w = (inr zr, w1) ->
     first_zone_id zr = inr z ->
     aggregate_fqdn (rr a) (zone a) = inr fqdn ->
     st = mkState w1 [EvListZones (zone a);
                      EvLog INFO "Managing route53 record: %s" [LStr fqdn]] ->
     get_zk_servers u st = (inl e, st2) ->
     run_main a w = (inl e, st2) /\
     listed_names (trace st2) = [] /\ submitted (trace st2) = []).
Proof.
  destruct (get_zk_servers_fails u st) as (Hf1 & Hf2 & Hf3).
  split; [|split; [|split; [|split]]].
  - intros resp w' body servers Hget Hb Hs. split; [|split].
    + by apply get_zk_servers_ok with resp body.
    + apply sorted_StronglySorted.
    + apply sorted_Permutation.
  - intros e w' Hget. by rewrite (Hf1 e w' Hget).
  - intros resp w' Hget Hb. by rewrite (Hf2 resp w' Hget Hb).
  - intros resp w' body Hget Hb Hs. by rewrite (Hf3 resp w' body Hget Hb Hs).
  - intros a w w1 zr z fqdn e st2 Hu Hz Hid Hfq -> Hg. subst u.
    by apply reader_error_aborts_main with w1 zr z fqdn.
Qed.

Lemma get_zk_servers_sorted_or_aborts_witness :
  (get_zk_servers "http://exhibitor/"
     (mkState (Sim.healthy_world ["10.0.0.2"; "10.0.0.10"; "10.0.0.1"] []) [])).1
    = inr ["10.0.0.1"; "10.0.0.10"; "10.0.0.2"] /\
  (run_main args_zk unreachable_world).1
    = inl (RequestException "connection refused").
Proof.
  split.
  - destruct (proj1 (get_zk_servers_sorted_or_aborts (W:=Sim.world)
                       "http://exhibitor/"
                       (mkState (Sim.healthy_world
                                   ["10.0.0.2"; "10.0.0.10"; "10.0.0.1"] []) []))
                {| status_code := 200;
                   json_body := Some {[ "servers" :=
                                          ["10.0.0.2"; "10.0.0.10"; "10.0.0.1"] ]} |}
                (Sim.healthy_world ["10.0.0.2"; "10.0.0.10"; "10.0.0.1"] [])
                {[ "servers" := ["10.0.0.2"; "10.0.0.10"; "10.0.0.1"] ]}
                ["10.0.0.2"; "10.0.0.10"; "10.0.0.1"])
      as (Hrun & _); [reflexivity | reflexivity | reflexivity |].
    rewrite Hrun. vm_compute. reflexivity.
  - destruct (proj2 (proj2 (proj2 (proj2
                (get_zk_servers_sorted_or_aborts (W:=Sim.world)
                   "http://exhibitor/"
                   (mkState unreachable_world
                      [EvListZones "example.com";
                       EvLog INFO "Managing route53 record: %s"
                         [LStr "zk.example.com."]])))))
                args_zk unreachable_world unreachable_world
                {| HostedZones := Some [ {| Id := Some "/hostedzone/Z1" |} ] |}
                (Some "/hostedzone/Z1") "zk.example.com."
                (RequestException "connection refused")
                (mkState unreachable_world
                   [EvListZones "example.com";
                    EvLog INFO "Managing route53 record: %s"
                      [LStr "zk.example.com."];
                    EvGet "http://exhibitor/exhibitor/v1/cluster/list"
                      [("accept", "application/json")]]))
      as (Hrun & _); [reflexivity..|].
    rewrite Hrun. reflexivity.
Defined.

(** The status code plays no part: an error status with a well-formed body
    is read like any other answer. *)
Example get_zk_servers_ignores_status :
  (get_zk_servers "http://exhibitor/"
     (mkState
        {| Sim.zones_answer := Sim.one_zone "/hostedzone/Z1";
           Sim.cluster_answer :=
             inr {| status_code := 503;
                    json_body := Some {[ "servers" := ["10.0.0.1"] ]} |};
           Sim.records := [];
           Sim.list_error := None;
           Sim.change_error := None |} [])).1
  = inr ["10.0.0.1"].
Proof. vm_compute. reflexivity. Qed.

(** ** Member names (line 75) *)

Lemma string_of_uint_length (d : Decimal.uint) :
  String.length (NilEmpty.string_of_uint d) = Decimal.nb_digits d.
Proof. induction d; simpl; congruence. Qed.

Lemma of_uint_one_digit (d : Decimal.uint) :
  Decimal.nb_digits d <= 1 -> Nat.of_uint d < 10.
Proof.
  destruct d as [|d|d|d|d|d|d|d|d|d|d]; simpl; intros H;
    try (destruct d; simpl in H; [vm_compute; lia | lia ..]).
  vm_compute. lia.
Qed.

Lemma str_of_nat_length_small (n : nat) :
  n < 10 -> String.length (str_of_nat n) = 1.
Proof.
  intros H. do 10 (destruct n as [|n]; [reflexivity|]). lia.
Qed.

Lemma str_of_nat_length_large (n : nat) :
  10 <= n -> 2 <= String.length (str_of_nat n).
Proof.
  intros H. unfold str_of_nat. rewrite string_of_uint_length.
  destruct (le_lt_dec 2 (Decimal.nb_digits (Nat.to_uint n))) as [|Hlt]; [done|].
  assert (Nat.of_uint (Nat.to_uint n) < 10) as Hsmall
    by (apply of_uint_one_digit; lia).
  rewrite Unsigned.of_to in Hsmall. lia.
Qed.

(** ["%02d"] is the rank zero-padded to two digits. *)
Lemma format_0d_two_digits (n : nat) : format_0d 2 n = two_digits n.
Proof.
  unfold format_0d, two_digits.
  destruct (Nat.ltb_spec n 10) as [Hlt|Hge].
  - by rewrite str_of_nat_length_small.
  - pose proof (str_of_nat_length_large n Hge) as Hlen.
    replace (2 - String.length (str_of_nat n)) with 0 by lia. reflexivity.
Qed.

Lemma digits_value_str_of_nat (n : nat) : digits_value (str_of_nat n) = Some n.
Proof.
  unfold digits_value, str_of_nat. rewrite NilEmpty.usu. simpl.
  by rewrite Unsigned.of_to.
Qed.

Lemma digits_value_leading_zero (s : string) :
  digits_value (String "0"%char s) = digits_value s.
Proof.
  unfold digits_value. simpl.
  destruct (NilEmpty.uint_of_string s) as [d|]; reflexivity.
Qed.

Lemma digits_value_two_digits (n : nat) : digits_value (two_digits n) = Some n.
Proof.
  unfold two_digits. destruct (n <? 10)%nat.
  - change ("0" +:+ str_of_nat n) with (String "0"%char (str_of_nat n)).
    rewrite digits_value_leading_zero. apply digits_value_str_of_nat.
  - apply digits_value_str_of_nat.
Qed.

Lemma two_digits_inj (i j : nat) : two_digits i = two_digits j -> i = j.
Proof.
  intros H. apply (f_equal digits_value) in H.
  rewrite !digits_value_two_digits in H. congruence.
Qed.

Lemma list_ascii_of_string_app (s t : string) :
  String.list_ascii_of_string (s +:+ t)
  = String.list_ascii_of_string s ++ String.list_ascii_of_string t.
Proof.
  induction s as [|a s IH]; [reflexivity|].
  change (String a s +:+ t) with (String a (s +:+ t)). simpl. by rewrite IH.
Qed.

Lemma string_app_inv_tail (s1 s2 t : string) :
  s1 +:+ t = s2 +:+ t -> s1 = s2.
Proof.
  intros H. apply (f_equal String.list_ascii_of_string) in H.
  rewrite !list_ascii_of_string_app in H. apply app_inv_tail in H.
  apply (f_equal String.string_of_list_ascii) in H.
  by rewrite !String.string_of_list_ascii_of_string in H.
Qed.

Lemma member_fqdn_two_digits (idx : nat) (zone_ : string) :
  member_fqdn idx zone_ = "zk" +:+ two_digits idx +:+ "." +:+ zone_ +:+ ".".
Proof. unfold member_fqdn. by rewrite format_0d_two_digits. Qed.

(** Distinct ranks have distinct names. *)
Lemma member_fqdn_inj (i j : nat) (zone_ : string) :
  member_fqdn i zone_ = member_fqdn j zone_ -> i = j.
Proof.
  rewrite !member_fqdn_two_digits. intros H.
  apply (inj (String.app "zk")) in H.
  apply string_app_inv_tail in H. by apply two_digits_inj.
Qed.

Example member_fqdn_7 : member_fqdn 7 "example.com" = "zk07.example.com.".
Proof. reflexivity. Qed.

Example member_fqdn_12 : member_fqdn 12 "example.com" = "zk12.example.com.".
Proof. reflexivity. Qed.

Example member_fqdn_100 : member_fqdn 100 "example.com" = "zk100.example.com.".
Proof. reflexivity. Qed.

(** ** The loop over the members (lines 73-90) *)

Lemma for_each_cons {W A} (x : A) (xs : list A) (f : A -> M W unit) :
  for_each (x :: xs) f = bind (f x) (fun _ => for_each xs f).
Proof. reflexivity. Qed.

Lemma ranked_lookup (members : list string) (i idx : nat) (address : string) :
  ranked members !! i = Some (idx, address) <->
  idx = i + 1 /\ sorted members !! i = Some address.
Proof.
  unfold ranked. rewrite lookup_zip_with_Some. split.
  - intros (x & y & [= <- <-] & Hx & Hy).
    apply lookup_seq in Hx as [-> _]. split; [lia | done].
  - intros [-> Hs]. exists (i + 1), address. split; [done|]. split; [|done].
    apply lookup_seq. split; [lia|].
    rewrite <- sorted_length. by apply lookup_lt_Some with address.
Qed.


Section MemberLoop.
Context {W : Type} `{!Externals W}.

Lemma member_body_rank (a : args) z (i : nat) (ip : string) (st : state W) :
  member_body a z (i, ip) st = reconcile_member a z (S i, ip) st.
Proof.
  unfold member_body, reconcile_member, reconcile_record. simpl.
  rewrite Nat.add_1_r, member_fqdn_two_digits. reflexivity.
Qed.

Lemma for_each_enumerate_ranked (a : args) z (xs : list string) (k : nat)
    (st : state W) :
  for_each (enumerate_from k xs) (member_body a z) st
  = for_each (zip (seq (S k) (length xs)) xs) (reconcile_member a z) st.
Proof.
  revert k st. induction xs as [|x xs IH]; intros k st; [reflexivity|].
  change (enumerate_from k (x :: xs)) with ((k, x) :: enumerate_from (S k) xs).
  change (zip (seq (S k) (length (x :: xs))) (x :: xs))
    with ((S k, x) :: zip (seq (S (S k)) (length xs)) xs).
  rewrite !for_each_cons. unfold bind. rewrite member_body_rank.
  destruct (reconcile_member a z (S k, x) st) as [[e|u] st1]; [reflexivity|].
  apply IH.
Qed.

End MemberLoop.


(** The example of the specification: members given out of order. *)
Example ranked_two_members :
  ranked ["10.0.0.2"; "10.0.0.1"] = [(1, "10.0.0.1"); (2, "10.0.0.2")].
Proof. reflexivity. Qed.

Example run_two_members :
  Sim.records
    (world (run_main args_zk (Sim.healthy_world ["10.0.0.2"; "10.0.0.1"] [])).2)
  = [("zk.example.com.", (300%Z, ["10.0.0.1"; "10.0.0.2"]));
     ("zk01.example.com.", (300%Z, ["10.0.0.1"]));
     ("zk02.example.com.", (300%Z, ["10.0.0.2"]))].
Proof. vm_compute. reflexivity. Qed.


(** ** Effects of one reconciliation *)

Lemma submits_create (desired : list string) :
  submits desired [] = bool_decide (desired <> []).
Proof.
  unfold submits. rewrite (bool_decide_true ([] = [])) by done.
  by rewrite orb_true_l, andb_true_r.
Qed.

Lemma submits_up_to_date (desired existing : list string) :
  existing <> [] -> sorted desired = sorted existing ->
  submits desired existing = false.
Proof.
  intros Hne Heq. unfold submits.
  rewrite (bool_decide_false (existing = [])) by done.
  rewrite (bool_decide_false (sorted desired <> _)) by (intros H; by apply H).
  by rewrite andb_false_r.
Qed.

Lemma submits_update (desired existing : list string) :
  existing <> [] -> sorted desired <> sorted existing ->
  submits desired existing = bool_decide (desired <> []).
Proof.
  intros Hne Hd. unfold submits.
  rewrite (bool_decide_false (existing = [])) by done.
  rewrite (bool_decide_true (sorted desired <> _)) by done.
  by rewrite orb_false_l, andb_true_r.
Qed.

Lemma submits_desired (desired existing : list string) :
  submits desired existing = true -> desired <> [].
Proof.
  unfold submits. intros H. apply andb_true_iff in H as [H _].
  by apply bool_decide_eq_true in H.
Qed.

Lemma submits_true_iff (desired existing : list string) :
  submits desired existing = true <-> desired <> [] /\ ~ desired ≡ₚ existing.
Proof.
  split.
  - intros Hs. split; [by apply submits_desired in Hs|].
    intros Hp. pose proof (submits_desired _ _ Hs) as Hd.
    rewrite submits_up_to_date in Hs; [discriminate| |].
    + intros ->. by apply Permutation_nil_r in Hp.
    + by apply sorted_Permutation_eq.
  - intros [Hd Hp]. destruct (decide (existing = [])) as [->|Hex].
    + rewrite submits_create. by apply bool_decide_eq_true.
    + rewrite submits_update; [by apply bool_decide_eq_true|done|].
      intros Heq. by apply Hp, sorted_eq_iff_Permutation.
Qed.

Section Effects.
Context {W : Type} `{!Externals W}.

Lemma fetch_run z n (st : state W) :
  fetch_existing_resource_records z n st =
  match list_resource_record_sets z n "A" (world st) with
  | (inl e, w1) => (inl e, mkState w1 (trace st ++ [EvListRecords z n "A"]))
  | (inr res, w1) =>
      (inr (sorted (collect_values n res)),
       mkState w1 (trace st ++ [EvListRecords z n "A"]))
  end.
Proof.
  unfold fetch_existing_resource_records, bind, call.
  destruct (list_resource_record_sets z n "A" (world st)) as [[e|res] w1];
    reflexivity.
Qed.

(** The writer always returns; it submits its batch when the list is not
    empty, and the world moves as the provider says. *)
Lemma upsert_record_effect z n ip_list ttl_ (st : state W) :
  exists st',
    upsert_record z n ip_list ttl_ st = (inr tt, st') /\
    listed_names (trace st') = listed_names (trace st) /\
    submitted (trace st') =
      submitted (trace st) ++
      (if bool_decide (ip_list <> [])
       then [(z, upsert_batch n (wrap_values ip_list) ttl_)] else []) /\
    world st' =
      (if bool_decide (ip_list <> [])
       then (change_resource_record_sets z
               (upsert_batch n (wrap_values ip_list) ttl_) (world st)).2
       else world st).
Proof.
  destruct ip_list as [|v l].
  - exists st. rewrite upsert_record_nil. simpl. by rewrite app_nil_r.
  - rewrite upsert_record_cons by done. cbv zeta.
    rewrite bool_decide_true by done.
    destruct (change_resource_record_sets _ _ _) as [[e|u] w'];
      eexists; (split; [reflexivity|]); simpl; trace_simpl; done.
Qed.

Lemma reconcile_effect z n desired existing ttl_ msg (st : state W) :
  exists st',
    reconcile z n desired existing ttl_ msg st = (inr tt, st') /\
    listed_names (trace st') = listed_names (trace st) /\
    submitted (trace st') =
      submitted (trace st) ++
      (if submits desired existing
       then [(z, upsert_batch n (wrap_values desired) ttl_)] else []) /\
    world st' =
      (if submits desired existing
       then (change_resource_record_sets z
               (upsert_batch n (wrap_values desired) ttl_) (world st)).2
       else world st).
Proof.
  destruct (decide (existing = [])) as [->|Hex].
  - rewrite reconcile_create, submits_create.
    destruct (upsert_record_effect z n desired ttl_
                (mkState (world st) (trace st ++ [EvLog INFO msg []])))
      as (st' & Hrun & Hl & Hs & Hw).
    exists st'. rewrite Hrun, Hl, Hs, Hw. simpl.
    trace_simpl. done.
  - destruct (decide (sorted desired = sorted existing)) as [Heq|Hne].
    + rewrite reconcile_up_to_date, submits_up_to_date by done.
      eexists. split; [reflexivity|]. simpl.
      trace_simpl. done.
    + rewrite reconcile_update, submits_update by done.
      destruct (upsert_record_effect z n desired ttl_
                  (mkState (world st)
                     ((trace st ++ [EvLog INFO "Existing record: %s"
                                      [LList existing]])
                        ++ [EvLog INFO "Updating record to match" []])))
        as (st' & Hrun & Hl & Hs & Hw).
      exists st'. rewrite Hrun, Hl, Hs, Hw. simpl.
      trace_simpl. done.
Qed.

(** One record, when its read succeeds. *)
Lemma reconcile_record_effect z n desired ttl_ msg (st : state W) res w1 :
  list_resource_record_sets z n "A" (world st) = (inr res, w1) ->
  let existing := sorted (collect_values n res) in
  exists st',
    reconcile_record z n desired ttl_ msg st = (inr tt, st') /\
    listed_names (trace st') = listed_names (trace st) ++ [n] /\
    submitted (trace st') =
      submitted (trace st) ++
      (if submits desired existing
       then [(z, upsert_batch n (wrap_values desired) ttl_)] else []) /\
    world st' =
      (if submits desired existing
       then (change_resource_record_sets z
               (upsert_batch n (wrap_values desired) ttl_) w1).2
       else w1).
Proof.
  intros Hread. cbv zeta. unfold reconcile_record, bind.
  rewrite fetch_run, Hread.
  destruct (reconcile_effect z n desired (sorted (collect_values n res)) ttl_ msg
              (mkState w1 (trace st ++ [EvListRecords z n "A"])))
    as (st' & Hrun & Hl & Hs & Hw).
  exists st'. rewrite Hrun, Hl, Hs, Hw. simpl.
  trace_simpl. done.
Qed.

(** One record, when its read raises: the error leaves the block. *)
Lemma reconcile_record_read_error z n desired ttl_ msg (st : state W) e w1 :
  list_resource_record_sets z n "A" (world st) = (inl e, w1) ->
  reconcile_record z n desired ttl_ msg st =
  (inl e, mkState w1 (trace st ++ [EvListRecords z n "A"])).
Proof.
  intros Hread. unfold reconcile_record, bind. by rewrite fetch_run, Hread.
Qed.

End Effects.

(** ** The run as a whole *)

Section Main.
Context {W : Type} `{!Externals W}.

Lemma main_after_setup (a : args) (w w1 w2 : W) zr z fqdn resp body servers :
  list_hosted_zones_by_name (zone a) w = (inr zr, w1) ->
  first_zone_id zr = inr z ->
  aggregate_fqdn (rr a) (zone a) = inr fqdn ->
  requests_get (exhibitor_endpoint (exhibitor_url a)) accept_json w1
    = (inr resp, w2) ->
  json_body resp = Some body ->
  body !! "servers" = Some servers ->
  run_main a w =
  main_tail a z fqdn (sorted servers)
    (mkState w2 (setup_trace a fqdn (sorted servers))).
Proof.
  intros Hz Hid Hfq Hget Hb Hs. unfold run_main, main.
  unfold bind at 1. unfold call. simpl. rewrite Hz. simpl.
  unfold bind at 1. rewrite Hid. simpl.
  unfold bind at 1. rewrite Hfq. simpl.
  unfold bind at 1. simpl.
  unfold bind at 1.
  rewrite (get_zk_servers_ok _ _ resp w2 body servers) by done.
  unfold bind at 1. simpl.
  unfold main_tail, reconcile_record, setup_trace, bind.
  destruct (fetch_existing_resource_records _ _ _) as [[e|existing] st3];
    reflexivity.
Qed.

(** Either the setup of [main] fails, and then no record has been read or
    written, or it succeeds and the rest of the run is [main_tail]. *)
Lemma main_setup_cases (a : args) (w : W) :
  (exists e st', run_main a w = (inl e, st') /\
                 submitted (trace st') = [] /\ listed_names (trace st') = []) \/
  (exists w1 w2 zr z fqdn resp body servers,
     list_hosted_zones_by_name (zone a) w = (inr zr, w1) /\
     first_zone_id zr = inr z /\
     aggregate_fqdn (rr a) (zone a) = inr fqdn /\
     requests_get (exhibitor_endpoint (exhibitor_url a)) accept_json w1
       = (inr resp, w2) /\
     json_body resp = Some body /\
     body !! "servers" = Some servers).
Proof.
  destruct (list_hosted_zones_by_name (zone a) w) as [[e|zr] w1] eqn:Hz.
  { left. eexists _, _. unfold run_main, main, bind, call. simpl.
    rewrite Hz. simpl. done. }
  destruct (first_zone_id zr) as [e|z] eqn:Hid.
  { left. eexists _, _. unfold run_main, main, bind, call. simpl.
    rewrite Hz. simpl. rewrite Hid. simpl. done. }
  destruct (aggregate_fqdn (rr a) (zone a)) as [e|fqdn] eqn:Hfq.
  { left. eexists _, _. unfold run_main, main, bind, call. simpl.
    rewrite Hz. simpl. rewrite Hid. simpl. rewrite Hfq. simpl. done. }
  destruct (get_zk_servers (exhibitor_url a)
              (mkState w1 [EvListZones (zone a);
                           EvLog INFO "Managing route53 record: %s" [LStr fqdn]]))
    as [[e|members] st2] eqn:Hg.
  { left. exists e, st2.
    destruct (reader_error_aborts_main a w w1 zr z fqdn e st2)
      as (Hrun & Hl & Hs); done. }
  right. revert Hg. unfold get_zk_servers, bind, call. simpl.
  fold (exhibitor_endpoint (exhibitor_url a)). fold accept_json.
  destruct (requests_get _ _ w1) as [[e|resp] w2] eqn:Hget; [done|]. simpl.
  unfold json. destruct (json_body resp) as [body|] eqn:Hb; [|done]. simpl.
  unfold getitem. destruct (body !! "servers") as [servers|] eqn:Hs; [|done].
  intros _. by exists w1, w2, zr, z, fqdn, resp, body, servers.
Qed.

End Main.

(** ** Upsert errors stay inside the writer *)

Section Continue.
Context {W : Type} `{!Externals W}.

Lemma member_body_run (a : args) z (i : nat) (ip : string) (st : state W) :
  member_body a z (i, ip) st =
  reconcile_record z (member_fqdn (i + 1) (zone a)) [ip] (ttl a)
    ("Creating new record: " +:+ member_fqdn (i + 1) (zone a))
    (mkState (world st)
       (trace st ++ [EvLog INFO ("target_fqdn: " +:+ member_fqdn (i + 1) (zone a)
                                   +:+ " ip: " +:+ ip) []])).
Proof. reflexivity. Qed.

Lemma upsert_batch_world_ok (I : W -> Prop) z n desired existing ttl_ w1 :
  reads_succeed I -> I w1 ->
  I (if submits desired existing
     then (change_resource_record_sets z
             (upsert_batch n (wrap_values desired) ttl_) w1).2
     else w1).
Proof. intros [_ Hch] Hw. destruct (submits _ _); auto. Qed.

(** With reads that succeed, one record is read and the block returns. *)
Lemma reconcile_record_attempt (I : W -> Prop) z n desired ttl_ msg
    (st : state W) :
  reads_succeed I -> I (world st) ->
  exists st',
    reconcile_record z n desired ttl_ msg st = (inr tt, st') /\
    I (world st') /\
    listed_names (trace st') = listed_names (trace st) ++ [n].
Proof.
  intros HI Hw. destruct (proj1 HI z n (world st) Hw) as (res & w1 & Hread & Hw1).
  destruct (reconcile_record_effect z n desired ttl_ msg st res w1 Hread)
    as (st' & Hrun & Hl & _ & Hw').
  exists st'. split; [done|]. split; [|done].
  rewrite Hw'. by apply upsert_batch_world_ok.
Qed.

Lemma member_loop_attempts (I : W -> Prop) (a : args) z (xs : list string)
    (k : nat) (st : state W) :
  reads_succeed I -> I (world st) ->
  exists st',
    for_each (enumerate_from k xs) (member_body a z) st = (inr tt, st') /\
    I (world st') /\
    listed_names (trace st') =
      listed_names (trace st)
      ++ map (fun idx => member_fqdn idx (zone a)) (seq (S k) (length xs)).
Proof.
  intros HI. revert k st. induction xs as [|x xs IH]; intros k st Hw.
  - exists st. simpl. by rewrite app_nil_r.
  - change (enumerate_from k (x :: xs)) with ((k, x) :: enumerate_from (S k) xs).
    rewrite for_each_cons. unfold bind at 1. rewrite member_body_run.
    destruct (reconcile_record_attempt I z (member_fqdn (k + 1) (zone a)) [x]
                (ttl a) ("Creating new record: " +:+ member_fqdn (k + 1) (zone a))
                (mkState (world st)
                   (trace st ++ [EvLog INFO ("target_fqdn: "
                                   +:+ member_fqdn (k + 1) (zone a)
                                   +:+ " ip: " +:+ x) []])) HI Hw)
      as (st1 & Hrun & Hw1 & Hl1).
    rewrite Hrun. destruct (IH (S k) st1 Hw1) as (st' & Hloop & Hw' & Hl').
    exists st'. split; [done|]. split; [done|].
    rewrite Hl', Hl1. simpl. rewrite listed_names_app. simpl.
    rewrite app_nil_r, <- app_assoc. simpl. by rewrite Nat.add_1_r.
Qed.

Lemma main_tail_attempts (I : W -> Prop) (a : args) z fqdn members
    (st : state W) :
  reads_succeed I -> I (world st) ->
  exists st',
    main_tail a z fqdn members st = (inr tt, st') /\
    listed_names (trace st') =
      listed_names (trace st) ++ fqdn :: member_names a (length members).
Proof.
  intros HI Hw. unfold main_tail.
  destruct (reconcile_record_attempt I z fqdn members (ttl a)
              "Creating new record." st HI Hw) as (st1 & Hrun & Hw1 & Hl1).
  rewrite (bind_inr _ _ _ _ _ Hrun).
  destruct (member_loop_attempts I a z (sorted members) 0 st1 HI Hw1)
    as (st2 & Hloop & Hw2 & Hl2).
  unfold member_loop, enumerate. rewrite (bind_inr _ _ _ _ _ Hloop).
  eexists. split; [reflexivity|]. simpl.
  rewrite listed_names_app, Hl2, Hl1. simpl.
  rewrite app_nil_r, <- app_assoc, sorted_length. done.
Qed.

Lemma reconcile_member_run (a : args) z (item : nat * string) (st : state W) :
  reconcile_member a z item st =
  reconcile_record z ("zk" +:+ two_digits item.1 +:+ "." +:+ zone a +:+ ".")
    [item.2] (ttl a)
    ("Creating new record: "
       +:+ ("zk" +:+ two_digits item.1 +:+ "." +:+ zone a +:+ "."))
    (mkState (world st)
       (trace st ++ [EvLog INFO ("target_fqdn: "
                       +:+ ("zk" +:+ two_digits item.1 +:+ "." +:+ zone a +:+ ".")
                       +:+ " ip: " +:+ item.2) []])).
Proof. reflexivity. Qed.

(** With reads that succeed, the loop with its error checks is the plain
    threading of the state through the records. *)
Lemma for_each_threads (I : W -> Prop) (a : args) z
    (items : list (nat * string)) (st : state W) :
  reads_succeed I -> I (world st) ->
  for_each items (reconcile_member a z) st =
  (inr tt, fold_left (fun st item => (reconcile_member a z item st).2) items st) /\
  I (world (fold_left (fun st item => (reconcile_member a z item st).2) items st)).
Proof.
  intros HI. revert st. induction items as [|item items IH]; intros st Hw.
  - done.
  - rewrite for_each_cons. unfold bind. cbn [fold_left].
    rewrite reconcile_member_run.
    destruct (reconcile_record_attempt I z
                ("zk" +:+ two_digits item.1 +:+ "." +:+ zone a +:+ ".")
                [item.2] (ttl a)
                ("Creating new record: "
                   +:+ ("zk" +:+ two_digits item.1 +:+ "." +:+ zone a +:+ "."))
                (mkState (world st)
                   (trace st ++ [EvLog INFO ("target_fqdn: "
                      +:+ ("zk" +:+ two_digits item.1 +:+ "." +:+ zone a +:+ ".")
                      +:+ " ip: " +:+ item.2) []])) HI Hw)
      as (st1 & Hrun & Hw1 & _).
    rewrite Hrun. cbn [snd]. by apply IH.
Qed.

Lemma member_loop_as_ranked (a : args) z (servers : list string) (st : state W) :
  member_loop a z (sorted servers) st
  = for_each (ranked servers) (reconcile_member a z) st.
Proof.
  unfold member_loop, enumerate, ranked.
  rewrite for_each_enumerate_ranked. by rewrite sorted_idem, !sorted_length.
Qed.

Lemma main_tail_threads (I : W -> Prop) (a : args) z fqdn servers
    (st : state W) :
  reads_succeed I -> I (world st) ->
  main_tail a z fqdn (sorted servers) st
  = (inr tt, finished (reconcile_all a z fqdn servers st)).
Proof.
  intros HI Hw. unfold main_tail, reconcile_all.
  destruct (reconcile_record_attempt I z fqdn (sorted servers) (ttl a)
              "Creating new record." st HI Hw) as (st1 & Hrun & Hw1 & _).
  rewrite (bind_inr _ _ _ _ _ Hrun). rewrite Hrun. cbn [snd].
  unfold bind at 1. rewrite member_loop_as_ranked.
  destruct (for_each_threads I a z (ranked servers) st1 HI Hw1) as [-> _].
  reflexivity.
Qed.

End Continue.

(** C7: the writer returns normally whatever the provider does; an error
    raised by the provider is logged at the writer and goes no further.  So
    in a run whose setup and record reads succeed, with no condition at all
    on how the provider answers the upserts, the run ends normally and its
    final state is the one obtained by reconciling every record in turn, the
    aggregate one and then one per member in rank order, each on the state
    the one before has left.  And each such reconciliation, whatever
    happened before it, reads its record, returns normally and hands its
    upsert to the provider exactly when something is desired that differs
    from what it has read. *)
Theorem upsert_errors_do_not_abort {W} `{!Externals W} :
  (forall z n ip_list ttl_ (st : state W),
     exists st', upsert_record z n ip_list ttl_ st = (inr tt, st')) /\
  (forall z n ip_list ttl_ (st : state W) e w',
     ip_list <> [] ->
     change_resource_record_sets z
       (upsert_batch n (wrap_values ip_list) ttl_) (world st) = (inl e, w') ->
     upsert_record z n ip_list ttl_ st =
     (inr tt,
      mkState w'
        (trace st ++ [EvChange z (upsert_batch n (wrap_values ip_list) ttl_);
                      EvLog ERROR "%s" [LExn e]]))) /\
  (forall (I : W -> Prop) (a : args) (w w1 w2 : W) zr z fqdn resp body servers,
     reads_succeed I ->
     list_hosted_zones_by_name (zone a) w = (inr zr, w1) ->
     first_zone_id zr = inr z ->
     aggregate_fqdn (rr a) (zone a) = inr fqdn ->
     requests_get (exhibitor_endpoint (exhibitor_url a)) accept_json w1
       = (inr resp, w2) ->
     json_body resp = Some body ->
     body !! "servers" = Some servers ->
     I w2 ->
     exists st',
       run_main a w = (inr tt, st') /\
       listed_names (trace st') = fqdn :: member_names a (length servers) /\
       st' = finished
               (reconcile_all a z fqdn servers
                  (mkState w2 (setup_trace a fqdn (sorted servers))))) /\
  (forall (I : W -> Prop) z n desired ttl_ msg (st : state W),
     reads_succeed I ->
     I (world st) ->
     exists res w1 st',
       list_resource_record_sets z n "A" (world st) = (inr res, w1) /\
       reconcile_record z n desired ttl_ msg st = (inr tt, st') /\
       I (world st') /\
       (if decide (desired <> [] /\
                   ~ desired ≡ₚ sorted (collect_values n res))
        then
          submitted (trace st') =
            submitted (trace st)
            ++ [(z, upsert_batch n (wrap_values desired) ttl_)] /\
          world st' =
            (change_resource_record_sets z
               (upsert_batch n (wrap_values desired) ttl_) w1).2
        else
          submitted (trace st') = submitted (trace st) /\ world st' = w1)).
Proof.
  split; [|split; [|split]].
  - intros. apply upsert_record_returns.
  - intros z n ip_list ttl_ st e w' Hne Hch.
    rewrite upsert_record_cons by done. cbv zeta. rewrite Hch.
    by rewrite <- app_assoc.
  - intros I a w w1 w2 zr z fqdn resp body servers HI Hz Hid Hfq Hget Hb Hs Hw2.
    rewrite (main_after_setup a w w1 w2 zr z fqdn resp body servers) by done.
    destruct (main_tail_attempts I a z fqdn (sorted servers)
                (mkState w2 (setup_trace a fqdn (sorted servers))) HI Hw2)
      as (st' & Hrun & Hl).
    exists st'. split; [done|]. split.
    + rewrite Hl. simpl. by rewrite sorted_length.
    + rewrite (main_tail_threads I) in Hrun by done. by injection Hrun as <-.
  - intros I z n desired ttl_ msg st HI Hw.
    destruct (proj1 HI z n (world st) Hw) as (res & w1 & Hread & Hw1).
    destruct (reconcile_record_effect z n desired ttl_ msg st res w1 Hread)
      as (st' & Hrun & _ & Hsub & Hworld).
    exists res, w1, st'. split; [done|]. split; [done|]. split.
    { rewrite Hworld. by apply upsert_batch_world_ok. }
    destruct (decide _) as [Hneed|Hnot].
    + apply submits_true_iff in Hneed. rewrite Hneed in Hsub, Hworld. done.
    + destruct (submits desired (sorted (collect_values n res))) eqn:Hs.
      * by apply submits_true_iff in Hs.
      * rewrite app_nil_r in Hsub. done.
Qed.

Lemma sim_reads_succeed :
  reads_succeed (fun w : Sim.world => Sim.list_error w = None).
Proof.
  split.
  - intros z n w Hw. simpl. rewrite Hw. eauto.
  - intros z b w Hw. simpl. destruct (Sim.change_error w); done.
Qed.

(** A provider that refuses every change: the three records are still
    reconciled, each upsert is handed over, refused and logged, and the run
    ends normally. *)
Lemma upsert_errors_do_not_abort_witness :
  exists st',
    run_main args_zk refusing_world = (inr tt, st') /\
    listed_names (trace st') =
      ["zk.example.com."; "zk01.example.com."; "zk02.example.com."] /\
    map (fun s => map ch_Name (Changes s.2)) (submitted (trace st')) =
      [["zk.example.com."]; ["zk01.example.com."]; ["zk02.example.com."]] /\
    Sim.records (world st') = [].
Proof.
  destruct (proj1 (proj2 (proj2 (upsert_errors_do_not_abort (W:=Sim.world))))
              (fun w : Sim.world => Sim.list_error w = None)
              args_zk refusing_world refusing_world refusing_world
              {| HostedZones := Some [ {| Id := Some "/hostedzone/Z1" |} ] |}
              (Some "/hostedzone/Z1") "zk.example.com."
              {| status_code := 200;
                 json_body := Some {[ "servers" := ["10.0.0.2"; "10.0.0.1"] ]} |}
              {[ "servers" := ["10.0.0.2"; "10.0.0.1"] ]}
              ["10.0.0.2"; "10.0.0.1"]
              sim_reads_succeed)
    as (st' & Hrun & Hl & Hst); [reflexivity..|].
  exists st'. split; [exact Hrun|]. split; [exact Hl|].
  rewrite Hst. vm_compute. split; reflexivity.
Defined.

(** ** Nothing is ever deleted or emptied *)

Lemma bind_invariant {W A B} (I : state W -> Prop) (m : M W A) (k : A -> M W B)
    (st : state W) :
  I (m st).2 -> (forall a st1, I st1 -> I (k a st1).2) -> I (bind m k st).2.
Proof.
  intros Hm Hk. unfold bind. destruct (m st) as [[e|a] st1]; simpl in *; auto.
Qed.

Lemma for_each_invariant {W A} (I : state W -> Prop) (xs : list A)
    (body : A -> M W unit) :
  (forall x st, I st -> I (body x st).2) ->
  forall st, I st -> I (for_each xs body st).2.
Proof.
  intros Hbody. induction xs as [|x xs IH]; intros st Hst; [done|].
  rewrite for_each_cons. apply bind_invariant; auto.
Qed.

Lemma wrap_values_nil_inv (ip_list : list string) :
  wrap_values ip_list = [] -> ip_list = [].
Proof. by destruct ip_list. Qed.

Lemma safe_upsert_batch z n desired ttl_ :
  desired <> [] ->
  safe_submission (z, upsert_batch n (wrap_values desired) ttl_).
Proof.
  intros Hne. unfold safe_submission. simpl. constructor; [|constructor].
  simpl. split; [done|]. intros H. by apply Hne, wrap_values_nil_inv.
Qed.

Section Safe.
Context {W : Type} `{!Externals W}.

Lemma reconcile_record_safe z n desired ttl_ msg (st : state W) :
  safe_trace (trace st) ->
  safe_trace (trace (reconcile_record z n desired ttl_ msg st).2).
Proof.
  intros Hsafe.
  destruct (list_resource_record_sets z n "A" (world st)) as [[e|res] w1] eqn:Hread.
  - rewrite (reconcile_record_read_error _ _ _ _ _ _ e w1) by done. simpl.
    unfold safe_trace. by trace_simpl.
  - destruct (reconcile_record_effect z n desired ttl_ msg st res w1 Hread)
      as (st' & Hrun & _ & Hs & _).
    rewrite Hrun. simpl. unfold safe_trace. rewrite Hs.
    apply Forall_app. split; [done|].
    destruct (submits desired _) eqn:Hsub; [|constructor].
    constructor; [|constructor].
    by apply safe_upsert_batch, submits_desired with (sorted (collect_values n res)).
Qed.

Lemma member_body_safe (a : args) z (item : nat * string) (st : state W) :
  safe_trace (trace st) -> safe_trace (trace (member_body a z item st).2).
Proof.
  intros Hsafe. destruct item as [i ip]. rewrite member_body_run.
  apply reconcile_record_safe. simpl. unfold safe_trace.
  by trace_simpl.
Qed.

Lemma main_tail_safe (a : args) z fqdn members (st : state W) :
  safe_trace (trace st) ->
  safe_trace (trace (main_tail a z fqdn members st).2).
Proof.
  intros Hsafe. unfold main_tail.
  apply (bind_invariant (fun st => safe_trace (trace st))).
  { by apply reconcile_record_safe. }
  intros _ st1 Hst1. apply (bind_invariant (fun st => safe_trace (trace st))).
  { unfold member_loop.
    apply (for_each_invariant (fun st => safe_trace (trace st))); [|done].
    intros x st2. apply member_body_safe. }
  intros _ st2 Hst2. simpl. unfold safe_trace. by trace_simpl.
Qed.

Lemma main_safe (a : args) (w : W) :
  safe_trace (trace (run_main a w).2).
Proof.
  destruct (main_setup_cases a w)
    as [(e & st' & Hrun & Hs & _)
       |(w1 & w2 & zr & z & fqdn & resp & body & servers
           & Hz & Hid & Hfq & Hget & Hb & Hsv)].
  - rewrite Hrun. simpl. unfold safe_trace. rewrite Hs. constructor.
  - rewrite (main_after_setup a w w1 w2 zr z fqdn resp body servers) by done.
    apply main_tail_safe. simpl. constructor.
Qed.

(** With no member at all the run submits nothing. *)
Lemma main_no_member_submits_nothing (a : args) (w w1 w2 : W)
    zr z fqdn resp body :
  list_hosted_zones_by_name (zone a) w = (inr zr, w1) ->
  first_zone_id zr = inr z ->
  aggregate_fqdn (rr a) (zone a) = inr fqdn ->
  requests_get (exhibitor_endpoint (exhibitor_url a)) accept_json w1
    = (inr resp, w2) ->
  json_body resp = Some body ->
  body !! "servers" = Some [] ->
  submitted (trace (run_main a w).2) = [].
Proof.
  intros Hz Hid Hfq Hget Hb Hs.
  rewrite (main_after_setup a w w1 w2 zr z fqdn resp body []) by done.
  change (sorted []) with (@nil string). unfold main_tail.
  set (st := mkState w2 (setup_trace a fqdn [])).
  destruct (list_resource_record_sets z fqdn "A" (world st)) as [[e|res] w3] eqn:Hr.
  - rewrite (bind_inl _ _ _ e (mkState w3 (trace st ++ [EvListRecords z fqdn "A"]))).
    + simpl. reflexivity.
    + by apply reconcile_record_read_error.
  - destruct (reconcile_record_effect z fqdn [] (ttl a) "Creating new record."
                st res w3 Hr) as (st' & Hrun & _ & Hsub & _).
    rewrite (bind_inr _ _ _ _ _ Hrun). unfold member_loop. simpl.
    unfold bind, ret, logging_info, emit. simpl.
    rewrite submitted_app, Hsub. simpl. reflexivity.
Qed.

End Safe.

(** C10: with no desired value and a non-empty existing record the
    reconciler takes the update branch, and the writer, given the empty
    list, makes no provider call: the world is exactly as before, only two
    log lines are added.  A run in which the ensemble reports no member
    submits nothing, and whatever the inputs every batch a run submits is an
    UPSERT of a non-empty value list: nothing is deleted and nothing is
    emptied. *)
Theorem never_deletes_or_empties {W} `{!Externals W} :
  (forall z n existing ttl_ msg (st : state W),
     existing <> [] ->
     reconcile z n [] existing ttl_ msg st =
     (inr tt,
      mkState (world st)
        (trace st ++ [EvLog INFO "Existing record: %s" [LList existing];
                      EvLog INFO "Updating record to match" []]))) /\
  (forall (a : args) (w w1 w2 : W) zr z fqdn resp body,
     list_hosted_zones_by_name (zone a) w = (inr zr, w1) ->
     first_zone_id zr = inr z ->
     aggregate_fqdn (rr a) (zone a) = inr fqdn ->
     requests_get (exhibitor_endpoint (exhibitor_url a)) accept_json w1
       = (inr resp, w2) ->
     json_body resp = Some body ->
     body !! "servers" = Some [] ->
     submitted (trace (run_main a w).2) = []) /\
  (forall (a : args) (w : W),
     Forall (fun s : option string * change_batch =>
               Forall (fun c => Action c = "UPSERT" /\ ch_ResourceRecords c <> [])
                      (Changes s.2))
            (submitted (trace (run_main a w).2))).
Proof.
  split; [|split].
  - intros z n existing ttl_ msg st Hne.
    rewrite reconcile_update; [|done|].
    + rewrite upsert_record_nil. by rewrite <- app_assoc.
    + intros H. apply Hne, sorted_nil_iff. rewrite <- H. reflexivity.
  - intros. by eapply main_no_member_submits_nothing.
  - intros a w. apply main_safe.
Qed.

(** The ensemble reports no member while records exist: they stay. *)
Lemma never_deletes_or_empties_witness :
  let w := Sim.healthy_world [] zone_zk01_zk10 in
  reconcile (Some "/hostedzone/Z1") "zk01.example.com." []
            ["10.0.0.1"; "10.0.0.9"] 300 "Creating new record." (mkState w [])
  = (inr tt,
     mkState w [EvLog INFO "Existing record: %s" [LList ["10.0.0.1"; "10.0.0.9"]];
                EvLog INFO "Updating record to match" []]) /\
  submitted (trace (run_main args_zk w).2) = [] /\
  Sim.records (world (run_main args_zk w).2) = zone_zk01_zk10.
Proof.
  intros w. split; [|split].
  - apply (proj1 (never_deletes_or_empties (W:=Sim.world))). discriminate.
  - apply (proj1 (proj2 (never_deletes_or_empties (W:=Sim.world)))
             args_zk w w w
             {| HostedZones := Some [ {| Id := Some "/hostedzone/Z1" |} ] |}
             (Some "/hostedzone/Z1") "zk.example.com."
             {| status_code := 200; json_body := Some {[ "servers" := [] ]} |}
             {[ "servers" := [] ]}); reflexivity.
  - vm_compute. reflexivity.
Defined.

(** ** Running twice *)

Lemma submits_false_inv (desired existing : list string) :
  submits desired existing = false ->
  desired = [] \/ (existing <> [] /\ sorted desired = sorted existing).
Proof.
  unfold submits. intros H. apply andb_false_iff in H as [H|H].
  - left. apply bool_decide_eq_false in H. by apply dec_stable in H.
  - right. apply orb_false_iff in H as [H1 H2].
    apply bool_decide_eq_false in H1, H2. split; [done|].
    by apply dec_stable in H2.
Qed.

(** Against a sorted existing list, an upsert is submitted exactly when
    something is desired and it is not what exists. *)
Lemma submits_against_sorted (desired existing : list string) :
  sorted existing = existing ->
  submits desired existing
  = bool_decide (desired <> [] /\ existing <> sorted desired).
Proof.
  intros Hsorted. destruct (submits desired existing) eqn:Hs; symmetry.
  - apply bool_decide_eq_true. split; [by apply submits_desired in Hs|].
    intros Heq. apply not_false_iff_true in Hs. apply Hs.
    destruct (decide (desired = [])) as [->|Hd]; [reflexivity|].
    apply submits_up_to_date.
    + rewrite Heq. by rewrite sorted_nil_iff.
    + by rewrite Heq, sorted_idem.
  - apply bool_decide_eq_false. intros [Hd Hne].
    apply submits_false_inv in Hs as [?|[_ Heq]]; [done|].
    apply Hne. by rewrite Heq, Hsorted.
Qed.

Section Idempotence.
Context {W : Type} `{!Externals W} `{!Faithful W}.

Lemma settled_ext (w w' : W) z n desired :
  stored w' z n = stored w z n -> settled w z n desired -> settled w' z n desired.
Proof. unfold settled. intros ->. done. Qed.

Lemma settled_members_ext (w w' : W) z a k xs :
  (forall n, stored w' z n = stored w z n) ->
  settled_members w z a k xs -> settled_members w' z a k xs.
Proof.
  intros Hst Hs i x Hi. apply settled_ext with w; [apply Hst | by apply Hs].
Qed.

(** What a successful read returns is the stored value, which is sorted. *)
Lemma read_is_stored z n (w w1 : W) res :
  healthy w ->
  list_resource_record_sets z n "A" w = (inr res, w1) ->
  sorted (collect_values n res) = stored w z n /\
  healthy w1 /\ (forall z' n', stored w1 z' n' = stored w z' n').
Proof.
  intros Hw Hread. destruct (faithful_read z n w _ w1 Hw Hread) as (H1 & H2 & H3).
  split; [by apply H3 | done].
Qed.

Lemma settled_submits_nothing z n desired (w w1 : W) res :
  healthy w -> settled w z n desired ->
  list_resource_record_sets z n "A" w = (inr res, w1) ->
  submits desired (sorted (collect_values n res)) = false.
Proof.
  intros Hw Hset Hread.
  destruct (read_is_stored z n w w1 res Hw Hread) as (Hst & _ & _).
  rewrite submits_against_sorted by apply sorted_idem.
  apply bool_decide_eq_false. intros [Hd Hne].
  destruct Hset as [?|Hset]; [done|]. apply Hne. by rewrite Hst.
Qed.

(** A settled record is read and left alone. *)
Lemma record_step_settled z n desired ttl_ msg (st : state W) :
  healthy (world st) -> settled (world st) z n desired ->
  healthy (world (reconcile_record z n desired ttl_ msg st).2) /\
  (forall z' n', stored (world (reconcile_record z n desired ttl_ msg st).2) z' n'
                 = stored (world st) z' n') /\
  submitted (trace (reconcile_record z n desired ttl_ msg st).2)
  = submitted (trace st).
Proof.
  intros Hw Hset.
  destruct (list_resource_record_sets z n "A" (world st)) as [[e|res] w1] eqn:Hread.
  - rewrite (reconcile_record_read_error _ _ _ _ _ _ e w1) by done. simpl.
    destruct (faithful_read z n (world st) _ w1 Hw Hread) as (H1 & H2 & _).
    by trace_simpl.
  - destruct (reconcile_record_effect z n desired ttl_ msg st res w1 Hread)
      as (st' & Hrun & _ & Hs & Hw').
    rewrite (settled_submits_nothing z n desired (world st) w1 res) in Hs, Hw'
      by done.
    destruct (read_is_stored z n (world st) w1 res Hw Hread) as (_ & H1 & H2).
    rewrite Hrun. simpl. rewrite Hw', Hs. by rewrite app_nil_r.
Qed.

(** After a reconciliation that returned, the record is settled; the other
    records are as before; the upsert, if any, was needed. *)
Lemma record_step_first z n desired ttl_ msg (st st' : state W) :
  healthy (world st) ->
  reconcile_record z n desired ttl_ msg st = (inr tt, st') ->
  healthy (world st') /\
  settled (world st') z n desired /\
  (forall n', n' <> n -> stored (world st') z n' = stored (world st) z n') /\
  upsert_count (trace st') =
    upsert_count (trace st)
    + (if bool_decide (desired <> [] /\ stored (world st) z n <> sorted desired)
       then 1 else 0).
Proof.
  intros Hw Hrun.
  destruct (list_resource_record_sets z n "A" (world st)) as [[e|res] w1] eqn:Hread.
  { rewrite (reconcile_record_read_error _ _ _ _ _ _ e w1) in Hrun by done.
    discriminate. }
  destruct (reconcile_record_effect z n desired ttl_ msg st res w1 Hread)
    as (st'' & Hrun' & _ & Hs & Hw').
  rewrite Hrun in Hrun'. injection Hrun' as <-.
  destruct (read_is_stored z n (world st) w1 res Hw Hread) as (Hst & Hw1 & Hfr).
  assert (upsert_count (trace st') =
          upsert_count (trace st)
          + (if submits desired (sorted (collect_values n res)) then 1 else 0))
    as Hcount.
  { unfold upsert_count. rewrite Hs, length_app.
    by destruct (submits desired _). }
  rewrite submits_against_sorted in Hcount by apply sorted_idem.
  rewrite Hst in Hcount.
  destruct (submits desired (sorted (collect_values n res))) eqn:Hsub.
  - pose proof (submits_desired _ _ Hsub) as Hd.
    destruct (change_resource_record_sets z
                (upsert_batch n (wrap_values desired) ttl_) w1) as [r w2] eqn:Hch.
    destruct (faithful_upsert z n desired ttl_ w1 r w2 Hw1 Hd Hch)
      as (Hw2 & _ & Hset & Hoth).
    simpl in Hw'. rewrite Hw'. split; [done|]. split; [by right|].
    split; [|done]. intros n' Hn'. rewrite Hoth by done. apply Hfr.
  - rewrite Hw'. split; [done|]. split; [|split; [|done]].
    + apply submits_false_inv in Hsub as [Hd|[_ Heq]]; [by left|].
      right. rewrite Hfr, <- Hst. by rewrite Heq, sorted_idem.
    + intros n' _. apply Hfr.
Qed.

End Idempotence.

Section IdempotentRun.
Context {W : Type} `{!Externals W} `{!Faithful W}.

Lemma log_step_submitted (st : state W) (ev_msg : string) :
  submitted (trace st ++ [EvLog INFO ev_msg []]) = submitted (trace st).
Proof. by trace_simpl. Qed.

(** First run: the loop settles the record of every member. *)
Lemma member_loop_first (a : args) z (xs : list string) (k : nat)
    (st st' : state W) :
  healthy (world st) ->
  for_each (enumerate_from k xs) (member_body a z) st = (inr tt, st') ->
  healthy (world st') /\
  (forall n',
     (forall i, i < length xs -> n' <> member_fqdn (k + i + 1) (zone a)) ->
     stored (world st') z n' = stored (world st) z n') /\
  settled_members (world st') z a k xs.
Proof.
  revert k st. induction xs as [|x xs IH]; intros k st Hw Hrun.
  - simpl in Hrun. injection Hrun as <-. split; [done|]. split; [done|].
    intros i y Hi. by rewrite lookup_nil in Hi.
  - change (enumerate_from k (x :: xs))
      with ((k, x) :: enumerate_from (S k) xs) in Hrun.
    rewrite for_each_cons in Hrun.
    apply bind_inr_inv in Hrun as ([] & st1 & Hhead & Htail).
    rewrite member_body_run in Hhead.
    apply record_step_first in Hhead as (Hw1 & Hset1 & Hoth1 & _); [|done].
    simpl in Hoth1.
    destruct (IH (S k) st1 Hw1 Htail) as (Hw' & Hoth' & Hset').
    split; [done|]. split.
    + intros n' Hn'. rewrite Hoth'.
      * apply Hoth1. specialize (Hn' 0). rewrite Nat.add_0_r in Hn'.
        apply Hn'. simpl. lia.
      * intros i Hi. replace (S k + i + 1) with (k + S i + 1) by lia.
        apply Hn'. simpl. lia.
    + intros i y Hi. destruct i as [|i].
      * injection Hi as <-. rewrite Nat.add_0_r.
        apply settled_ext with (world st1); [|done].
        apply Hoth'. intros i Hi Heq. apply member_fqdn_inj in Heq. lia.
      * replace (k + S i + 1) with (S k + i + 1) by lia. by apply Hset'.
Qed.

(** Second run: a loop over settled records submits nothing. *)
Lemma member_loop_settled (a : args) z (xs : list string) (k : nat)
    (st : state W) :
  healthy (world st) ->
  settled_members (world st) z a k xs ->
  submitted (trace (for_each (enumerate_from k xs) (member_body a z) st).2)
  = submitted (trace st).
Proof.
  revert k st. induction xs as [|x xs IH]; intros k st Hw Hset; [done|].
  change (enumerate_from k (x :: xs)) with ((k, x) :: enumerate_from (S k) xs).
  rewrite for_each_cons. unfold bind. rewrite member_body_run.
  set (st0 := mkState (world st) _).
  destruct (record_step_settled z (member_fqdn (k + 1) (zone a)) [x] (ttl a)
              ("Creating new record: " +:+ member_fqdn (k + 1) (zone a)) st0)
    as (Hw1 & Hst1 & Hsub1).
  { done. }
  { specialize (Hset 0 x eq_refl). by rewrite Nat.add_0_r in Hset. }
  destruct (reconcile_record _ _ _ _ _ st0) as [[e|u] st1]; simpl in *.
  - rewrite Hsub1. unfold st0. apply log_step_submitted.
  - rewrite IH; [|done|].
    + rewrite Hsub1. unfold st0. apply log_step_submitted.
    + apply settled_members_ext with (world st); [apply Hst1|].
      intros i y Hi. replace (S k + i + 1) with (k + S i + 1) by lia.
      by apply Hset.
Qed.

Lemma main_tail_first (a : args) z fqdn members (st st' : state W) :
  healthy (world st) ->
  (length members <= 1 \/
   forall idx, 1 <= idx <= length members -> fqdn <> member_fqdn idx (zone a)) ->
  main_tail a z fqdn members st = (inr tt, st') ->
  healthy (world st') /\
  settled (world st') z fqdn members /\
  settled_members (world st') z a 0 (sorted members).
Proof.
  intros Hw Hdistinct Hrun. unfold main_tail in Hrun.
  apply bind_inr_inv in Hrun as ([] & st1 & Hagg & Hrun).
  apply bind_inr_inv in Hrun as ([] & st2 & Hloop & Hdone).
  injection Hdone as <-. simpl.
  apply record_step_first in Hagg as (Hw1 & Hset1 & _ & _); [|done].
  destruct (member_loop_first a z (sorted members) 0 st1 st2 Hw1 Hloop)
    as (Hw2 & Hoth2 & Hset2).
  split; [done|]. split; [|done].
  assert ((forall idx, 1 <= idx <= length members ->
                       fqdn <> member_fqdn idx (zone a)) ->
          settled (world st2) z fqdn members) as Hfar.
  { intros Hne. apply settled_ext with (world st1); [|done].
    apply Hoth2. intros i Hi. apply Hne. rewrite sorted_length in Hi. lia. }
  destruct Hdistinct as [Hone|Hne]; [|by apply Hfar].
  destruct members as [|x [|y members]]; [by left| |simpl in Hone; lia].
  destruct (decide (fqdn = member_fqdn 1 (zone a))) as [->|Hother].
  - apply (Hset2 0 x). reflexivity.
  - apply Hfar. intros idx Hidx. simpl in Hidx.
    by replace idx with 1 by lia.
Qed.

Lemma main_tail_settled (a : args) z fqdn members (st : state W) :
  healthy (world st) ->
  settled (world st) z fqdn members ->
  settled_members (world st) z a 0 (sorted members) ->
  submitted (trace (main_tail a z fqdn members st).2) = submitted (trace st).
Proof.
  intros Hw Hagg Hmem. unfold main_tail, bind.
  destruct (record_step_settled z fqdn members (ttl a) "Creating new record."
              st Hw Hagg) as (Hw1 & Hst1 & Hsub1).
  destruct (reconcile_record z fqdn members (ttl a) _ st) as [[e|u] st1];
    simpl in *; [done|].
  pose proof (member_loop_settled a z (sorted members) 0 st1 Hw1) as Hloop.
  unfold member_loop, enumerate.
  destruct (for_each _ _ st1) as [[e|u'] st2]; simpl in *.
  - rewrite Hloop; [done|]. by apply settled_members_ext with (world st).
  - rewrite submitted_app. simpl. rewrite app_nil_r.
    rewrite Hloop; [done|]. by apply settled_members_ext with (world st).
Qed.

(** A second run, started where a completed first run ended. *)
Lemma second_run_submits_nothing (a : args) (w0 w1 w2 : W) (st1 : state W)
    fqdn zr resp body servers :
  healthy w0 ->
  unchanged_membership W ->
  list_hosted_zones_by_name (zone a) w0 = (inr zr, w1) ->
  requests_get (exhibitor_endpoint (exhibitor_url a)) accept_json w1
    = (inr resp, w2) ->
  json_body resp = Some body ->
  body !! "servers" = Some servers ->
  aggregate_fqdn (rr a) (zone a) = inr fqdn ->
  (length servers <= 1 \/
   forall idx, 1 <= idx <= length servers -> fqdn <> member_fqdn idx (zone a)) ->
  run_main a w0 = (inr tt, st1) ->
  submitted (trace (run_main a (world st1)).2) = [].
Proof.
  intros Hw0 [Hget Hzones] Hz Hg Hb Hsv Hfq Hdistinct Hrun1.
  destruct (first_zone_id zr) as [e|z] eqn:Hid.
  { revert Hrun1. unfold run_main, main, bind, call. simpl. rewrite Hz. simpl.
    by rewrite Hid. }
  rewrite (main_after_setup a w0 w1 w2 zr z fqdn resp body servers) in Hrun1
    by done.
  destruct (faithful_zones _ _ _ _ Hw0 Hz) as (Hw1 & _).
  destruct (faithful_get _ _ _ _ _ Hw1 Hg) as (Hw2 & _).
  apply main_tail_first in Hrun1 as (Hend & Hagg & Hmem);
    [|done|by rewrite sorted_length].
  destruct (main_setup_cases a (world st1))
    as [(e & st' & Hrun & Hs & _)
       |(v1 & v2 & zr' & z' & fqdn' & resp' & body' & servers'
           & Hz' & Hid' & Hfq' & Hg' & Hb' & Hsv')].
  { by rewrite Hrun. }
  rewrite Hfq in Hfq'. injection Hfq' as <-.
  destruct (faithful_zones _ _ _ _ Hend Hz') as (Hv1 & Hst1).
  destruct (faithful_get _ _ _ _ _ Hv1 Hg') as (Hv2 & Hst2).
  pose proof (Hzones (zone a) w0 (world st1) Hw0 Hend) as Hsame.
  rewrite Hz, Hz' in Hsame. injection Hsame as <-.
  rewrite Hid in Hid'. injection Hid' as <-.
  pose proof (Hget (exhibitor_endpoint (exhibitor_url a)) accept_json w1 v1
                Hw1 Hv1) as Hsame.
  rewrite Hg, Hg' in Hsame. injection Hsame as <-.
  rewrite Hb in Hb'. injection Hb' as <-.
  rewrite Hsv in Hsv'. injection Hsv' as <-.
  rewrite (main_after_setup a (world st1) v1 v2 zr z fqdn resp body servers)
    by done.
  rewrite main_tail_settled; [done|done|..].
  - simpl. apply settled_ext with (world st1); [|done].
    by rewrite Hst2, Hst1.
  - simpl. apply settled_members_ext with (world st1); [|done].
    intros n. by rewrite Hst2, Hst1.
Qed.

End IdempotentRun.

(** ** The reference provider is faithful *)

Lemma sim_insert_by_name_Permutation (e : string * (Z * list string))
    (db : list (string * (Z * list string))) :
  Sim.insert_by_name e db ≡ₚ e :: db.
Proof.
  induction db as [|d db IH]; simpl; [done|].
  destruct (decide (String.le e.1 d.1)); [done|].
  rewrite IH. apply perm_swap.
Qed.

Lemma sim_values_at_Permutation (db db' : list (string * (Z * list string)))
    (n : string) :
  db ≡ₚ db' -> Sim.values_at db n ≡ₚ Sim.values_at db' n.
Proof. intros Hp. unfold Sim.values_at. by rewrite Hp. Qed.

Lemma sim_values_at_removed (db : list (string * (Z * list string))) (n : string) :
  Sim.values_at (filter (fun e => e.1 ≠ n) db) n = [].
Proof.
  unfold Sim.values_at. rewrite list_filter_filter.
  induction db as [|d db IH]; [done|].
  rewrite filter_cons. destruct (decide _) as [[H1 H2]|_]; [done|]. exact IH.
Qed.

Lemma sim_values_at_kept (db : list (string * (Z * list string))) (n n' : string) :
  n' <> n -> Sim.values_at (filter (fun e => e.1 ≠ n) db) n' = Sim.values_at db n'.
Proof.
  intros Hne. unfold Sim.values_at. f_equal.
  apply list_filter_filter_l. intros x ->. done.
Qed.

Lemma sim_values_at_put (db : list (string * (Z * list string)))
    (n n' : string) (v : Z * list string) :
  Sim.values_at (Sim.put n v db) n'
  ≡ₚ (if decide (n' = n) then v.2 else Sim.values_at db n').
Proof.
  unfold Sim.put.
  rewrite (sim_values_at_Permutation _ _ n'
             (sim_insert_by_name_Permutation (n, v) _)).
  unfold Sim.values_at at 1. rewrite filter_cons. simpl.
  destruct (decide (n = n')) as [<-|Hne].
  - rewrite decide_True by done. simpl.
    fold (Sim.values_at (filter (fun e => e.1 ≠ n) db) n).
    by rewrite sim_values_at_removed, app_nil_r.
  - rewrite decide_False by done.
    fold (Sim.values_at (filter (fun e => e.1 ≠ n) db) n').
    by rewrite sim_values_at_kept.
Qed.

(** A scan from a name reports, under that name, the values held there. *)
Lemma sim_scan_values (db : list (string * (Z * list string))) (n : string) :
  matching_values n {| ResourceRecordSets := Some (Sim.scan n db) |}
  = Sim.values_at db n.
Proof.
  unfold matching_values, matching_sets, Sim.values_at, Sim.scan. simpl.
  induction db as [|d db IH]; [done|].
  rewrite !filter_cons.
  destruct (decide (d.1 = n)) as [Heq|Hne].
  - rewrite decide_True by (rewrite Heq; reflexivity).
    simpl. rewrite filter_cons. rewrite decide_True by done. simpl.
    rewrite IH. unfold record_set_values. simpl. by rewrite values_of_wrap.
  - destruct (decide (String.le n d.1)); [|exact IH].
    simpl. rewrite filter_cons. rewrite decide_False by done. exact IH.
Qed.

Section SimFaithful.
Variable za : exn + list_zones_response.
Variable ca : exn + http_response.

Lemma sim_faithful_read z n (w : Sim.world) r w' :
  Sim.steady za ca w ->
  list_resource_record_sets z n "A" w = (r, w') ->
  Sim.steady za ca w' /\
  (forall (z' : option string) n',
     sorted (Sim.values_at (Sim.records w') n')
     = sorted (Sim.values_at (Sim.records w) n')) /\
  (forall res, r = inr res ->
     sorted (collect_values n res) = sorted (Sim.values_at (Sim.records w) n)).
Proof.
  intros Hw. simpl. destruct (Sim.list_error w) as [e|]; intros [= <- <-].
  - done.
  - split; [done|]. split; [done|]. intros res [= <-].
    by rewrite collect_values_matching, sim_scan_values.
Qed.

Lemma sim_faithful_upsert z n ips t (w : Sim.world) r w' :
  Sim.steady za ca w ->
  ips <> [] ->
  change_resource_record_sets z (upsert_batch n (wrap_values ips) t) w = (r, w') ->
  Sim.steady za ca w' /\
  r = inr tt /\
  sorted (Sim.values_at (Sim.records w') n) = sorted ips /\
  (forall n', n' <> n ->
     sorted (Sim.values_at (Sim.records w') n')
     = sorted (Sim.values_at (Sim.records w) n')).
Proof.
  intros (Hz & Hc & Herr) _. simpl. rewrite Herr. intros [= <- <-]. simpl.
  split; [done|]. split; [done|].
  unfold Sim.apply_change. simpl. rewrite values_of_wrap. split.
  - apply sorted_Permutation_eq. rewrite sim_values_at_put.
    by rewrite decide_True.
  - intros n' Hne. apply sorted_Permutation_eq. rewrite sim_values_at_put.
    by rewrite decide_False.
Qed.

Lemma sim_faithful_get u h (w : Sim.world) r w' :
  Sim.steady za ca w ->
  requests_get u h w = (r, w') ->
  Sim.steady za ca w' /\
  (forall (z' : option string) n',
     sorted (Sim.values_at (Sim.records w') n')
     = sorted (Sim.values_at (Sim.records w) n')).
Proof. intros Hw. simpl. by intros [= <- <-]. Qed.

Lemma sim_faithful_zones d (w : Sim.world) r w' :
  Sim.steady za ca w ->
  list_hosted_zones_by_name d w = (r, w') ->
  Sim.steady za ca w' /\
  (forall (z' : option string) n',
     sorted (Sim.values_at (Sim.records w') n')
     = sorted (Sim.values_at (Sim.records w) n')).
Proof. intros Hw. simpl. by intros [= <- <-]. Qed.

Definition sim_faithful : Faithful Sim.world :=
  {| healthy := Sim.steady za ca;
     stored := fun w _ n => sorted (Sim.values_at (Sim.records w) n);
     faithful_read := sim_faithful_read;
     faithful_upsert := sim_faithful_upsert;
     faithful_get := sim_faithful_get;
     faithful_zones := sim_faithful_zones |}.

Lemma sim_unchanged_membership :
  @unchanged_membership Sim.world Sim.externals sim_faithful.
Proof.
  split.
  - intros u h w1 w2 (_ & H1 & _) (_ & H2 & _). simpl. congruence.
  - intros d w1 w2 (H1 & _) (H2 & _). simpl. congruence.
Qed.

End SimFaithful.

(** With [--rr zk] the aggregate record is none of the per-member records. *)
Lemma zk_name_not_member (idx : nat) (zone_ : string) :
  "zk" +:+ "." +:+ zone_ +:+ "." <> member_fqdn idx zone_.
Proof.
  rewrite member_fqdn_two_digits. intros H.
  apply (inj (String.app "zk")) in H.
  change ("." +:+ zone_ +:+ ".") with ("" +:+ ("." +:+ zone_ +:+ ".")) in H at 1.
  apply string_app_inv_tail in H.
  pose proof (digits_value_two_digits idx) as Hd. rewrite <- H in Hd.
  injection Hd as <-. discriminate.
Qed.

(** C8 as worded fails.  On the reference provider, which keeps exactly what
    it is told, a run with [--rr zk01] and two members is followed by a
    second run that submits two upserts: the aggregate record and the record
    of the first member are the same record, and each run overwrites it
    twice.  So the rerun property does not hold for every input.  And a
    reconciliation of a record that is already up to date submits no upsert
    the first time, not exactly one. *)
Lemma rerun_with_shared_name_writes_again :
  (let r1 := run_main args_zk01 two_member_world in
   let r2 := run_main args_zk01 (world r1.2) in
   r1.1 = inr tt /\ r2.1 = inr tt /\ upsert_count (trace r2.2) = 2) /\
  ~ (forall (W : Type) (E : Externals W) (F : Faithful W)
            (a : args) (w0 : W) (st1 : state W),
       healthy w0 ->
       unchanged_membership W ->
       run_main a w0 = (inr tt, st1) ->
       upsert_count (trace (run_main a (world st1)).2) = 0) /\
  (let st := mkState (Sim.healthy_world []
                        [("zk01.example.com.", (300%Z, ["10.0.0.1"]))]) [] in
   upsert_count
     (trace (reconcile_record (Some "/hostedzone/Z1") "zk01.example.com."
               ["10.0.0.1"] 300 "Creating new record." st).2) = 0).
Proof.
  split; [|split].
  - vm_compute. repeat split.
  - intros Hclaim.
    specialize (Hclaim Sim.world Sim.externals
                  (sim_faithful (Sim.zones_answer two_member_world)
                                (Sim.cluster_answer two_member_world))
                  args_zk01 two_member_world
                  (run_main args_zk01 two_member_world).2).
    assert (upsert_count
              (trace (run_main args_zk01
                        (world (run_main args_zk01 two_member_world).2)).2) = 2)
      as Htwo by (vm_compute; reflexivity).
    rewrite Hclaim in Htwo; [discriminate| | |].
    + repeat split.
    + apply sim_unchanged_membership.
    + vm_compute. reflexivity.
  - vm_compute. reflexivity.
Qed.

(** C8, amended: on a provider that keeps what it is told, with the zone
    lookup and the ensemble answering the same, a second run after a
    completed first run submits no upsert, provided the aggregate record is
    not also the record of one of the members of the run (ranks 1 to the
    number of members), or there is at most one member.  For one record, a
    reconciliation that returns submits exactly one upsert when something is
    desired and it is not what the record stores, none otherwise, and
    reconciling the same record again submits none. *)
Theorem rerun_is_idempotent {W} `{!Externals W} `{!Faithful W} :
  (forall (a : args) (w0 w1 w2 : W) (st1 : state W) fqdn zr resp body servers,
     healthy w0 ->
     unchanged_membership W ->
     list_hosted_zones_by_name (zone a) w0 = (inr zr, w1) ->
     requests_get (exhibitor_endpoint (exhibitor_url a)) accept_json w1
       = (inr resp, w2) ->
     json_body resp = Some body ->
     body !! "servers" = Some servers ->
     aggregate_fqdn (rr a) (zone a) = inr fqdn ->
     (length servers <= 1 \/
      forall idx, 1 <= idx <= length servers ->
                  fqdn <> member_fqdn idx (zone a)) ->
     run_main a w0 = (inr tt, st1) ->
     upsert_count (trace (run_main a (world st1)).2) = 0) /\
  (forall z n desired ttl_ msg (st st1 : state W),
     healthy (world st) ->
     reconcile_record z n desired ttl_ msg st = (inr tt, st1) ->
     upsert_count (trace st1) =
       upsert_count (trace st)
       + (if bool_decide (desired <> [] /\ stored (world st) z n <> sorted desired)
          then 1 else 0) /\
     (forall msg' tr',
        upsert_count
          (trace (reconcile_record z n desired ttl_ msg'
                    (mkState (world st1) tr')).2)
        = upsert_count tr')).
Proof.
  split.
  - intros a w0 w1 w2 st1 fqdn zr resp body servers
           Hw0 Hsame Hz Hg Hb Hsv Hfq Hdistinct Hrun.
    unfold upsert_count.
    by rewrite (second_run_submits_nothing a w0 w1 w2 st1 fqdn zr resp body
                  servers).
  - intros z n desired ttl_ msg st st1 Hw Hrun.
    destruct (record_step_first z n desired ttl_ msg st st1 Hw Hrun)
      as (Hw1 & Hset & _ & Hcount).
    split; [done|]. intros msg' tr'. unfold upsert_count.
    destruct (record_step_settled z n desired ttl_ msg' (mkState (world st1) tr'))
      as (_ & _ & Hsub); [done..|].
    by rewrite Hsub.
Qed.

(** Three reruns that submit nothing: the usual [--rr zk]; [--rr zk05] with
    two members, a member name of a rank that is not reached; [--rr zk01]
    with a single member, where the two records are one and hold the same
    value. *)
Lemma rerun_is_idempotent_witness :
  upsert_count (trace (run_main args_zk two_member_world).2) = 3 /\
  upsert_count
    (trace (run_main args_zk (world (run_main args_zk two_member_world).2)).2) = 0 /\
  upsert_count
    (trace (run_main args_zk05
              (world (run_main args_zk05 two_member_world).2)).2) = 0 /\
  upsert_count
    (trace (run_main args_zk01
              (world (run_main args_zk01 one_member_world).2)).2) = 0.
Proof.
  split; [vm_compute; reflexivity|]. split; [|split].
  - apply (proj1 (@rerun_is_idempotent Sim.world Sim.externals
                    (sim_faithful (Sim.zones_answer two_member_world)
                                  (Sim.cluster_answer two_member_world)))
             args_zk two_member_world two_member_world two_member_world
             (run_main args_zk two_member_world).2 "zk.example.com."
             {| HostedZones := Some [ {| Id := Some "/hostedzone/Z1" |} ] |}
             {| status_code := 200;
                json_body := Some {[ "servers" := ["10.0.0.2"; "10.0.0.1"] ]} |}
             {[ "servers" := ["10.0.0.2"; "10.0.0.1"] ]}
             ["10.0.0.2"; "10.0.0.1"]).
    + repeat split.
    + apply sim_unchanged_membership.
    + reflexivity.
    + reflexivity.
    + reflexivity.
    + reflexivity.
    + reflexivity.
    + right. intros idx _. apply (zk_name_not_member idx "example.com").
    + vm_compute. reflexivity.
  - apply (proj1 (@rerun_is_idempotent Sim.world Sim.externals
                    (sim_faithful (Sim.zones_answer two_member_world)
                                  (Sim.cluster_answer two_member_world)))
             args_zk05 two_member_world two_member_world two_member_world
             (run_main args_zk05 two_member_world).2 "zk05.example.com."
             {| HostedZones := Some [ {| Id := Some "/hostedzone/Z1" |} ] |}
             {| status_code := 200;
                json_body := Some {[ "servers" := ["10.0.0.2"; "10.0.0.1"] ]} |}
             {[ "servers" := ["10.0.0.2"; "10.0.0.1"] ]}
             ["10.0.0.2"; "10.0.0.1"]).
    + repeat split.
    + apply sim_unchanged_membership.
    + reflexivity.
    + reflexivity.
    + reflexivity.
    + reflexivity.
    + reflexivity.
    + right. intros idx Hidx. simpl in Hidx.
      assert (idx = 1 \/ idx = 2) as [-> | ->] by lia; discriminate.
    + vm_compute. reflexivity.
  - apply (proj1 (@rerun_is_idempotent Sim.world Sim.externals
                    (sim_faithful (Sim.zones_answer one_member_world)
                                  (Sim.cluster_answer one_member_world)))
             args_zk01 one_member_world one_member_world one_member_world
             (run_main args_zk01 one_member_world).2 "zk01.example.com."
             {| HostedZones := Some [ {| Id := Some "/hostedzone/Z1" |} ] |}
             {| status_code := 200;
                json_body := Some {[ "servers" := ["10.0.0.1"] ]} |}
             {[ "servers" := ["10.0.0.1"] ]}
             ["10.0.0.1"]).
    + repeat split.
    + apply sim_unchanged_membership.
    + reflexivity.
    + reflexivity.
    + reflexivity.
    + reflexivity.
    + reflexivity.
    + left. simpl. lia.
    + vm_compute. reflexivity.
Defined.

(** ** More on names and URLs *)

Lemma string_app_assoc (s t u : string) : (s +:+ t) +:+ u = s +:+ (t +:+ u).
Proof.
  induction s as [|a s IH]; [reflexivity|].
  change ((String a s +:+ t) +:+ u) with (String a ((s +:+ t) +:+ u)).
  by rewrite IH.
Qed.

Lemma string_app_cons (a : ascii) (s t : string) :
  String a s +:+ t = String a (s +:+ t).
Proof. reflexivity. Qed.

Lemma last_char_app (s t : string) :
  t <> EmptyString -> last_char (s +:+ t) = last_char t.
Proof.
  intros Ht. induction s as [|a s IH]; [reflexivity|].
  rewrite string_app_cons.
  destruct (s +:+ t) as [|b r] eqn:Hst.
  - destruct s; [by destruct t | discriminate].
  - change (last_char (String a (String b r))) with (last_char (String b r)).
    exact IH.
Qed.

Lemma rstrip_repeat_char (c : ascii) (k : nat) :
  rstrip c (repeat_char c k) = EmptyString.
Proof.
  induction k as [|k IH]; [reflexivity|].
  simpl. rewrite IH. by rewrite decide_True.
Qed.

Lemma rstrip_app_repeat_char (c : ascii) (s : string) (k : nat) :
  rstrip c (s +:+ repeat_char c k) = rstrip c s.
Proof.
  induction s as [|a s IH]; [apply rstrip_repeat_char|].
  rewrite string_app_cons. simpl. by rewrite IH.
Qed.

Lemma rstrip_no_trailing (c : ascii) (s : string) :
  last_char (rstrip c s) <> inr c.
Proof.
  induction s as [|a s IH]; [done|].
  simpl. destruct (rstrip c s) as [|b r].
  - destruct (decide (a = c)); [done|]. simpl. congruence.
  - exact IH.
Qed.

Lemma rstrip_decompose (c : ascii) (s : string) :
  exists k, s = rstrip c s +:+ repeat_char c k.
Proof.
  induction s as [|a s [k IH]]; [by exists 0|].
  simpl. destruct (rstrip c s) as [|b r].
  - destruct (decide (a = c)) as [->|].
    + exists (S k). simpl in IH. by rewrite IH at 1.
    + exists k. simpl in IH. rewrite string_app_cons. simpl. by rewrite IH at 1.
  - exists k. rewrite string_app_cons. by rewrite <- IH.
Qed.

(** X1: trailing slashes of the base URL play no part.  The request goes to
    the base URL stripped of all its trailing slashes, followed by the fixed
    path: the stripped part does not end in a slash, what was stripped is
    slashes only, and adding slashes to the base URL changes neither the URL
    requested nor anything else in the outcome of the ensemble reader. *)
Theorem exhibitor_endpoint_trailing_slashes {W} `{!Externals W}
    (u : string) (k : nat) :
  exhibitor_endpoint (u +:+ repeat_char "/" k) = exhibitor_endpoint u /\
  last_char (rstrip "/" u) <> inr "/"%char /\
  (exists j, u = rstrip "/" u +:+ repeat_char "/" j) /\
  (forall st : state W,
     get_zk_servers (u +:+ repeat_char "/" k) st = get_zk_servers u st).
Proof.
  split; [|split; [|split]].
  - unfold exhibitor_endpoint. by rewrite rstrip_app_repeat_char.
  - apply rstrip_no_trailing.
  - apply rstrip_decompose.
  - intros st. unfold get_zk_servers. by rewrite rstrip_app_repeat_char.
Qed.

(** X2: for a non-empty record name the aggregate name is computed and is
    the name itself when it ends in a dot, and the name, a dot, the zone and
    a dot when it does not. *)
Theorem aggregate_fqdn_nonempty (rr_ zone_ : string) :
  rr_ <> "" ->
  ((exists p, rr_ = p +:+ ".") /\ aggregate_fqdn rr_ zone_ = inr rr_) \/
  ((forall p, rr_ <> p +:+ ".") /\
   aggregate_fqdn rr_ zone_ = inr (rr_ +:+ "." +:+ zone_ +:+ ".")).
Proof.
  intros Hne. destruct (last_char_nonempty rr_ Hne) as [c Hc].
  destruct (decide (c = "."%char)) as [->|Hdot].
  - left. apply last_char_inr in Hc as [p ->]. split; [by exists p|].
    apply aggregate_fqdn_absolute.
  - right. assert (forall p, rr_ <> p +:+ ".") as Hno.
    { intros p ->. rewrite last_char_snoc in Hc. congruence. }
    split; [done|]. by apply aggregate_fqdn_relative.
Qed.

Lemma aggregate_fqdn_nonempty_witness :
  aggregate_fqdn "zk.prod" "example.com" = inr "zk.prod.example.com." /\
  aggregate_fqdn "zk.other.org." "example.com" = inr "zk.other.org.".
Proof.
  split.
  - destruct (aggregate_fqdn_nonempty "zk.prod" "example.com")
      as [[[p Hp] _]|[_ H]]; [discriminate | | exact H].
    apply (f_equal last_char) in Hp. rewrite last_char_snoc in Hp.
    discriminate.
  - destruct (aggregate_fqdn_nonempty "zk.other.org." "example.com")
      as [[_ H]|[Hno _]]; [discriminate | exact H |].
    by destruct (Hno "zk.other.org").
Defined.

Lemma member_fqdn_ends_in_dot (idx : nat) (zone_ : string) :
  last_char (member_fqdn idx zone_) = inr "."%char.
Proof.
  unfold member_fqdn.
  rewrite <- !string_app_assoc. apply last_char_snoc.
Qed.

(** X3: every record name the script works on ends in a dot, the aggregate
    one whenever it is computed and the per-member ones always; and such a
    name given back as [--rr] is used as it is, whatever the zone. *)
Theorem managed_names_end_in_dot (rr_ zone_ fqdn : string) :
  aggregate_fqdn rr_ zone_ = inr fqdn ->
  last_char fqdn = inr "."%char /\
  (forall zone', aggregate_fqdn fqdn zone' = inr fqdn) /\
  (forall idx,
     last_char (member_fqdn idx zone_) = inr "."%char /\
     forall zone', aggregate_fqdn (member_fqdn idx zone_) zone'
                   = inr (member_fqdn idx zone_)).
Proof.
  intros Hf.
  assert (forall s, last_char s = inr "."%char ->
                    forall zone', aggregate_fqdn s zone' = inr s) as Hfix.
  { intros s Hs zone'. unfold aggregate_fqdn. rewrite Hs.
    by rewrite decide_True. }
  assert (last_char fqdn = inr "."%char) as Hlast.
  { unfold aggregate_fqdn in Hf.
    destruct (last_char rr_) as [e|c] eqn:Hc; [done|].
    destruct (decide (c = "."%char)) as [->|_]; injection Hf as <-; [done|].
    rewrite <- !string_app_assoc. apply last_char_snoc. }
  split; [done|]. split; [by apply Hfix|].
  intros idx. split; [apply member_fqdn_ends_in_dot|].
  apply Hfix, member_fqdn_ends_in_dot.
Qed.

Lemma managed_names_end_in_dot_witness :
  last_char "zk.example.com." = inr "."%char /\
  aggregate_fqdn "zk.example.com." "other.org" = inr "zk.example.com.".
Proof.
  destruct (managed_names_end_in_dot "zk" "example.com" "zk.example.com.")
    as (Hlast & Hfix & _); [reflexivity|].
  split; [exact Hlast | exact (Hfix "other.org")].
Defined.

(** ** More on the rank in a member name *)

Lemma of_uint_two_digits (d : Decimal.uint) :
  Decimal.nb_digits d <= 2 -> Nat.of_uint d < 100.
Proof.
  intros H.
  destruct d as [|d|d|d|d|d|d|d|d|d|d]; [vm_compute; lia|..];
    (destruct d as [|d|d|d|d|d|d|d|d|d|d]; [vm_compute; lia|..];
     (destruct d; [vm_compute; lia | simpl in H; lia ..])).
Qed.

Lemma str_of_nat_length_below_100 (n : nat) :
  n < 100 -> String.length (str_of_nat n) <= 2.
Proof.
  intros H. do 100 (destruct n as [|n]; [vm_compute; lia|]). lia.
Qed.

Lemma str_of_nat_length_from_100 (n : nat) :
  100 <= n -> 3 <= String.length (str_of_nat n).
Proof.
  intros H. unfold str_of_nat. rewrite string_of_uint_length.
  destruct (le_lt_dec 3 (Decimal.nb_digits (Nat.to_uint n))) as [|Hlt]; [done|].
  assert (Nat.of_uint (Nat.to_uint n) < 100) as Hsmall
    by (apply of_uint_two_digits; lia).
  rewrite Unsigned.of_to in Hsmall. lia.
Qed.

Lemma string_length_app (s t : string) :
  String.length (s +:+ t) = String.length s + String.length t.
Proof.
  induction s as [|a s IH]; [reflexivity|].
  rewrite string_app_cons. simpl. by rewrite IH.
Qed.

Lemma two_digits_length (n : nat) :
  2 <= String.length (two_digits n) /\
  (n < 100 -> String.length (two_digits n) = 2) /\
  (100 <= n -> 3 <= String.length (two_digits n)).
Proof.
  unfold two_digits. destruct (Nat.ltb_spec n 10) as [Hlt|Hge].
  - change ("0" +:+ str_of_nat n) with (String "0"%char (str_of_nat n)).
    simpl. rewrite str_of_nat_length_small by done. lia.
  - pose proof (str_of_nat_length_large n Hge).
    split; [done|]. split.
    + intros Hlt. pose proof (str_of_nat_length_below_100 n Hlt). lia.
    + apply str_of_nat_length_from_100.
Qed.

Lemma last_char_digits (d : Decimal.uint) :
  d <> Decimal.Nil ->
  exists c, last_char (NilEmpty.string_of_uint d) = inr c /\ c <> "."%char.
Proof.
  induction d as [|d IH|d IH|d IH|d IH|d IH|d IH|d IH|d IH|d IH|d IH];
    intros Hne; [done|..];
    (simpl; destruct (NilEmpty.string_of_uint d) as [|b r] eqn:Hs;
     [eexists; split; [reflexivity | discriminate]
     |destruct IH as (c & Hc & Hdot); [intros ->; discriminate|];
      exists c; split; [exact Hc | exact Hdot]]).
Qed.

Lemma str_of_nat_nonempty (n : nat) : str_of_nat n <> "".
Proof.
  intros H. apply (f_equal String.length) in H. simpl in H.
  destruct (Nat.ltb_spec n 10) as [Hlt|Hge].
  - rewrite str_of_nat_length_small in H by done. lia.
  - pose proof (str_of_nat_length_large n Hge). lia.
Qed.

Lemma last_char_format_0d (n : nat) :
  exists c, last_char (format_0d 2 n) = inr c /\ c <> "."%char.
Proof.
  unfold format_0d. rewrite last_char_app by apply str_of_nat_nonempty.
  apply last_char_digits. intros H.
  apply (str_of_nat_nonempty n). unfold str_of_nat. by rewrite H.
Qed.

(** X4: the rank written with ["%02d"] can be read back: its digits denote
    the rank; they are exactly two for the ranks below 100 and at least
    three from 100 on, where the field grows instead of truncating. *)
Theorem format_0d_round_trip (n : nat) :
  digits_value (format_0d 2 n) = Some n /\
  2 <= String.length (format_0d 2 n) /\
  (n < 100 -> String.length (format_0d 2 n) = 2) /\
  (100 <= n -> 3 <= String.length (format_0d 2 n)).
Proof.
  rewrite format_0d_two_digits. split; [apply digits_value_two_digits|].
  apply two_digits_length.
Qed.

Lemma format_0d_round_trip_witness :
  String.length (format_0d 2 7) = 2 /\ 3 <= String.length (format_0d 2 123).
Proof.
  destruct (format_0d_round_trip 7) as (_ & _ & H7 & _).
  destruct (format_0d_round_trip 123) as (_ & _ & _ & H123).
  split; [apply H7; lia | apply H123; lia].
Defined.

(** X5: the per-member record names of a run are pairwise distinct, and
    none of them is the aggregate name that [--rr zk] gives. *)
Theorem member_names_distinct (a : args) (n : nat) :
  NoDup (member_names a n) /\
  (forall fqdn, aggregate_fqdn "zk" (zone a) = inr fqdn ->
                fqdn ∉ member_names a n).
Proof.
  split.
  - unfold member_names. apply NoDup_fmap_2_strong; [|apply NoDup_seq].
    intros i j _ _. apply member_fqdn_inj.
  - intros fqdn [= <-]. unfold member_names. intros Hin.
    apply list_elem_of_fmap in Hin as (idx & Heq & _).
    by apply (zk_name_not_member idx (zone a)).
Qed.

Lemma member_names_distinct_witness :
  "zk.example.com." ∉ member_names args_zk 3.
Proof.
  apply (proj2 (member_names_distinct args_zk 3)). reflexivity.
Defined.

(** X6: nothing keeps the aggregate record apart from the per-member ones:
    for every rank, a record name argument made of ["zk"] and the rank
    written with two digits gives the aggregate record the very name of that
    member's record. *)
Theorem aggregate_name_can_be_a_member_name (idx : nat) (zone_ : string) :
  aggregate_fqdn ("zk" +:+ format_0d 2 idx) zone_ = inr (member_fqdn idx zone_).
Proof.
  destruct (last_char_format_0d idx) as (c & Hc & Hdot).
  assert (format_0d 2 idx <> "") as Hne by (intros H; by rewrite H in Hc).
  unfold aggregate_fqdn. rewrite last_char_app by done. rewrite Hc.
  rewrite decide_False by done. unfold member_fqdn.
  by rewrite string_app_assoc.
Qed.

(** ** More on the DNS reader *)

Lemma matching_values_view (n : string) (sets sets' : list record_set) :
  map record_set_view sets = map record_set_view sets' ->
  flat_map record_set_values (filter (fun rs => record_set_name rs = n) sets)
  = flat_map record_set_values (filter (fun rs => record_set_name rs = n) sets').
Proof.
  revert sets'. induction sets as [|rs sets IH]; intros [|rs' sets'] Hv;
    try discriminate; [reflexivity|].
  simpl in Hv. injection Hv as Hname Hvals Hrest.
  rewrite !filter_cons, Hname.
  destruct (decide (record_set_name rs' = n)); simpl.
  - rewrite Hvals. f_equal. by apply IH.
  - by apply IH.
Qed.

(** X7: the reader looks at nothing but the name and the values of each
    listed record set.  Two answers whose record sets agree on these, read
    with the defaults for absent keys, give the same result whatever the
    types and TTLs: record sets of every type under the name are collected,
    and an entry without [Value], a record set without [ResourceRecords] and
    a record set without [Name] count as no value, no entries and the empty
    name. *)
Theorem reader_sees_names_and_values {W} `{!Externals W}
    (z : option string) (n : string) (st st' : state W)
    (res res' : list_rrsets_response) (w1 w1' : W) :
  list_resource_record_sets z n "A" (world st) = (inr res, w1) ->
  list_resource_record_sets z n "A" (world st') = (inr res', w1') ->
  map record_set_view (default [] (ResourceRecordSets res))
  = map record_set_view (default [] (ResourceRecordSets res')) ->
  (fetch_existing_resource_records z n st).1
  = (fetch_existing_resource_records z n st').1.
Proof.
  intros Hr Hr' Hv. rewrite !fetch_run, Hr, Hr'. simpl.
  rewrite !collect_values_matching. unfold matching_values, matching_sets.
  by rewrite (matching_values_view n _ _ Hv).
Qed.

(** X8: the result of the reader does not depend on the order in which the
    provider lists the record sets. *)
Theorem reader_ignores_listing_order {W} `{!Externals W}
    (z : option string) (n : string) (st st' : state W)
    (res res' : list_rrsets_response) (w1 w1' : W) :
  list_resource_record_sets z n "A" (world st) = (inr res, w1) ->
  list_resource_record_sets z n "A" (world st') = (inr res', w1') ->
  default [] (ResourceRecordSets res) ≡ₚ default [] (ResourceRecordSets res') ->
  (fetch_existing_resource_records z n st).1
  = (fetch_existing_resource_records z n st').1.
Proof.
  intros Hr Hr' Hp. rewrite !fetch_run, Hr, Hr'. simpl. f_equal.
  apply sorted_Permutation_eq. rewrite !collect_values_matching.
  unfold matching_values, matching_sets. by rewrite Hp.
Qed.

Lemma reader_sees_names_and_values_witness :
  (fetch_existing_resource_records (Some "/hostedzone/Z1") "zk.example.com."
     (mkState (Scripted.answering answer_a) [])).1
  = (fetch_existing_resource_records (Some "/hostedzone/Z1") "zk.example.com."
       (mkState (Scripted.answering answer_b) [])).1.
Proof.
  apply (reader_sees_names_and_values (W:=Scripted.world)
           (Some "/hostedzone/Z1") "zk.example.com."
           (mkState (Scripted.answering answer_a) [])
           (mkState (Scripted.answering answer_b) [])
           answer_a answer_b
           (Scripted.answering answer_a) (Scripted.answering answer_b));
    reflexivity.
Defined.

Lemma reader_ignores_listing_order_witness :
  (fetch_existing_resource_records (Some "/hostedzone/Z1") "zk.example.com."
     (mkState (Scripted.answering answer_a) [])).1
  = (fetch_existing_resource_records (Some "/hostedzone/Z1") "zk.example.com."
       (mkState (Scripted.answering answer_c) [])).1.
Proof.
  apply (reader_ignores_listing_order (W:=Scripted.world)
           (Some "/hostedzone/Z1") "zk.example.com."
           (mkState (Scripted.answering answer_a) [])
           (mkState (Scripted.answering answer_c) [])
           answer_a answer_c
           (Scripted.answering answer_a) (Scripted.answering answer_c));
    [reflexivity | reflexivity | apply perm_swap].
Defined.

(** ** Read errors *)

Lemma enumerate_from_app {A} (xs ys : list A) (k : nat) :
  enumerate_from k (xs ++ ys)
  = enumerate_from k xs ++ enumerate_from (k + length xs) ys.
Proof.
  revert k. induction xs as [|x xs IH]; intros k; simpl.
  - by rewrite Nat.add_0_r.
  - rewrite IH. by replace (S k + length xs) with (k + S (length xs)) by lia.
Qed.

Lemma for_each_app {W A} (xs ys : list A) (f : A -> M W unit) (st : state W) :
  for_each (xs ++ ys) f st = bind (for_each xs f) (fun _ => for_each ys f) st.
Proof.
  revert st. induction xs as [|x xs IH]; intros st; [reflexivity|].
  simpl. unfold bind in *. destruct (f x st) as [[e|u] st1]; [reflexivity|].
  apply IH.
Qed.

(** X9: unlike an error of an upsert, an error of a record read is not
    caught and ends the run on the spot.  If the read of the aggregate record
    raises, [main] returns that error right after the read and no per-member
    record is looked at; if, in the loop, the read of a member's record
    raises after the members before it have been dealt with, the loop
    returns that error right after the read and the members after it are not
    looked at. *)
Theorem read_errors_abort {W} `{!Externals W} :
  (forall (a : args) (w w1 w2 w3 : W) zr z fqdn resp body servers e,
     list_hosted_zones_by_name (zone a) w = (inr zr, w1) ->
     first_zone_id zr = inr z ->
     aggregate_fqdn (rr a) (zone a) = inr fqdn ->
     requests_get (exhibitor_endpoint (exhibitor_url a)) accept_json w1
       = (inr resp, w2) ->
     json_body resp = Some body ->
     body !! "servers" = Some servers ->
     list_resource_record_sets z fqdn "A" w2 = (inl e, w3) ->
     run_main a w =
     (inl e, mkState w3 (setup_trace a fqdn (sorted servers)
                           ++ [EvListRecords z fqdn "A"]))) /\
  (forall (a : args) z (xs : list string) (y : string) (ys : list string)
          (k : nat) (st st1 : state W) e w',
     for_each (enumerate_from k xs) (member_body a z) st = (inr tt, st1) ->
     list_resource_record_sets z (member_fqdn (k + length xs + 1) (zone a)) "A"
       (world st1) = (inl e, w') ->
     for_each (enumerate_from k (xs ++ y :: ys)) (member_body a z) st =
     (inl e,
      mkState w'
        (trace st1 ++
         [EvLog INFO ("target_fqdn: "
                      +:+ member_fqdn (k + length xs + 1) (zone a)
                      +:+ " ip: " +:+ y) [];
          EvListRecords z (member_fqdn (k + length xs + 1) (zone a)) "A"]))).
Proof.
  split.
  - intros a w w1 w2 w3 zr z fqdn resp body servers e Hz Hid Hfq Hg Hb Hs Hr.
    rewrite (main_after_setup a w w1 w2 zr z fqdn resp body servers) by done.
    unfold main_tail. apply bind_inl. by apply reconcile_record_read_error.
  - intros a z xs y ys k st st1 e w' Hxs Hr.
    rewrite enumerate_from_app, for_each_app. rewrite (bind_inr _ _ _ _ _ Hxs).
    change (enumerate_from (k + length xs) (y :: ys))
      with ((k + length xs, y) :: enumerate_from (S (k + length xs)) ys).
    rewrite for_each_cons. apply bind_inl. rewrite member_body_run.
    rewrite (reconcile_record_read_error _ _ _ _ _ _ e w') by done.
    simpl. by rewrite <- app_assoc.
Qed.

(** Three members, the read of the second member's record refused: the
    first member is dealt with, the third is never looked at. *)
Lemma read_errors_abort_witness :
  let st0 := mkState Scripted.refusing_zk02 [] in
  let z := Some "/hostedzone/Z1" in
  let r := for_each (enumerate_from 0 ["10.0.0.1"; "10.0.0.2"; "10.0.0.3"])
             (member_body args_zk z) st0 in
  r.1 = inl (ClientError "Throttling") /\
  listed_names (trace r.2) = ["zk01.example.com."; "zk02.example.com."].
Proof.
  intros st0 z r. subst r.
  rewrite (proj2 (read_errors_abort (W:=Scripted.world)) args_zk z
             ["10.0.0.1"] "10.0.0.2" ["10.0.0.3"] 0 st0
             (for_each (enumerate_from 0 ["10.0.0.1"]) (member_body args_zk z) st0).2
             (ClientError "Throttling") Scripted.refusing_zk02);
    [|reflexivity|reflexivity].
  split; [reflexivity | vm_compute; reflexivity].
Defined.

(** ** The shape of a run *)

Lemma snoc_split {A} (tr tr1 tr2 : list A) (ev x : A) :
  tr ++ [ev] = tr1 ++ x :: tr2 ->
  (tr2 = [] /\ tr = tr1 /\ ev = x) \/
  (exists tr2', tr2 = tr2' ++ [ev] /\ tr = tr1 ++ x :: tr2').
Proof.
  destruct tr2 as [|y tr2 _] using rev_ind; intros H.
  - left. apply app_inj_tail in H as [-> ->]. done.
  - right. exists tr2.
    change (tr1 ++ x :: tr2 ++ [y]) with (tr1 ++ (x :: tr2) ++ [y]) in H.
    rewrite app_assoc in H. apply app_inj_tail in H as [-> ->]. done.
Qed.

Lemma writes_follow_reads_none (ttl_ : Z) (tr : list event) :
  submitted tr = [] -> writes_follow_reads ttl_ tr.
Proof.
  intros Hs tr1 z b tr2 ->. rewrite submitted_app in Hs. simpl in Hs.
  by destruct (submitted tr1).
Qed.

Lemma writes_follow_reads_other (ttl_ : Z) (tr : list event) (ev : event) :
  writes_follow_reads ttl_ tr ->
  (forall z b, ev <> EvChange z b) ->
  writes_follow_reads ttl_ (tr ++ [ev]).
Proof.
  intros Htr Hev tr1 z b tr2 Heq.
  apply snoc_split in Heq as [(_ & _ & ->)|(tr2' & _ & ->)].
  - by destruct (Hev z b).
  - by apply (Htr tr1 z b tr2').
Qed.

Lemma writes_follow_reads_change (ttl_ : Z) (tr : list event) z n ips :
  writes_follow_reads ttl_ tr ->
  ips <> [] ->
  last (external_calls tr) = Some (EvListRecords z n "A") ->
  writes_follow_reads ttl_
    (tr ++ [EvChange z (upsert_batch n (wrap_values ips) ttl_)]).
Proof.
  intros Htr Hips Hlast tr1 z' b tr2 Heq.
  apply snoc_split in Heq as [(_ & -> & [= <- <-])|(tr2' & _ & ->)].
  - by exists n, ips.
  - by apply (Htr tr1 z' b tr2').
Qed.

Lemma last_external_log (tr : list event) lvl msg args_ :
  last (external_calls (tr ++ [EvLog lvl msg args_])) = last (external_calls tr).
Proof. rewrite external_calls_app. simpl. by rewrite app_nil_r. Qed.

Section RunShape.
Context {W : Type} `{!Externals W}.

Lemma upsert_record_follows z n ips ttl_ (st : state W) :
  writes_follow_reads ttl_ (trace st) ->
  last (external_calls (trace st)) = Some (EvListRecords z n "A") ->
  writes_follow_reads ttl_ (trace (upsert_record z n ips ttl_ st).2).
Proof.
  intros Htr Hlast. destruct ips as [|v l].
  - by rewrite upsert_record_nil.
  - rewrite upsert_record_cons by done. cbv zeta.
    destruct (change_resource_record_sets _ _ _) as [[e|u] w']; cbn [snd trace].
    + apply writes_follow_reads_other; [|done].
      by apply (writes_follow_reads_change ttl_ (trace st) z n (v :: l)).
    + by apply (writes_follow_reads_change ttl_ (trace st) z n (v :: l)).
Qed.

Lemma reconcile_follows z n desired existing ttl_ msg (st : state W) :
  writes_follow_reads ttl_ (trace st) ->
  last (external_calls (trace st)) = Some (EvListRecords z n "A") ->
  writes_follow_reads ttl_ (trace (reconcile z n desired existing ttl_ msg st).2).
Proof.
  intros Htr Hlast. destruct (decide (existing = [])) as [->|Hex].
  - rewrite reconcile_create. apply upsert_record_follows; simpl.
    + by apply writes_follow_reads_other.
    + by rewrite last_external_log.
  - destruct (decide (sorted desired = sorted existing)) as [Heq|Hne].
    + rewrite reconcile_up_to_date by done. simpl.
      do 2 (apply writes_follow_reads_other; [|done]). done.
    + rewrite reconcile_update by done. apply upsert_record_follows; simpl.
      * do 2 (apply writes_follow_reads_other; [|done]). done.
      * by rewrite !last_external_log.
Qed.

Lemma reconcile_record_follows z n desired ttl_ msg (st : state W) :
  writes_follow_reads ttl_ (trace st) ->
  writes_follow_reads ttl_ (trace (reconcile_record z n desired ttl_ msg st).2).
Proof.
  intros Htr. unfold reconcile_record, bind. rewrite fetch_run.
  destruct (list_resource_record_sets z n "A" (world st)) as [[e|res] w1]; simpl.
  - by apply writes_follow_reads_other.
  - apply reconcile_follows; simpl.
    + by apply writes_follow_reads_other.
    + rewrite external_calls_app. simpl. apply last_snoc.
Qed.

Lemma main_tail_follows (a : args) z fqdn members (st : state W) :
  writes_follow_reads (ttl a) (trace st) ->
  writes_follow_reads (ttl a) (trace (main_tail a z fqdn members st).2).
Proof.
  intros Htr. unfold main_tail.
  apply (bind_invariant (fun st => writes_follow_reads (ttl a) (trace st))).
  { by apply reconcile_record_follows. }
  intros _ st1 Hst1.
  apply (bind_invariant (fun st => writes_follow_reads (ttl a) (trace st))).
  { unfold member_loop.
    apply (for_each_invariant
             (fun st => writes_follow_reads (ttl a) (trace st))); [|done].
    intros [i ip] st2 Hst2. rewrite member_body_run.
    apply reconcile_record_follows. simpl.
    by apply writes_follow_reads_other. }
  intros _ st2 Hst2. simpl. by apply writes_follow_reads_other.
Qed.

End RunShape.

(** X10: in every run, every change submitted to the provider is a batch of
    one UPSERT of type A carrying the TTL given on the command line and a
    non-empty value list, and the last call made to the outside before it is
    the read of that very record in the same zone: the script writes no
    record it has not just read. *)
Theorem writes_only_what_it_just_read {W} `{!Externals W} (a : args) (w : W) :
  forall tr1 z b tr2,
    trace (run_main a w).2 = tr1 ++ EvChange z b :: tr2 ->
    exists n ips,
      b = {| Changes := [ {| Action := "UPSERT"; ch_Name := n; ch_Type := "A";
                             ch_TTL := ttl a;
                             ch_ResourceRecords := wrap_values ips |} ] |} /\
      ips <> [] /\
      last (external_calls tr1) = Some (EvListRecords z n "A").
Proof.
  assert (writes_follow_reads (ttl a) (trace (run_main a w).2)) as H;
    [|exact H].
  destruct (main_setup_cases a w)
    as [(e & st' & Hrun & Hs & _)
       |(w1 & w2 & zr & z & fqdn & resp & body & servers
           & Hz & Hid & Hfq & Hget & Hb & Hsv)].
  - rewrite Hrun. by apply writes_follow_reads_none.
  - rewrite (main_after_setup a w w1 w2 zr z fqdn resp body servers) by done.
    apply main_tail_follows. by apply writes_follow_reads_none.
Qed.

Lemma writes_only_what_it_just_read_witness :
  exists tr1 tr2,
    trace (run_main args_zk (Sim.healthy_world ["10.0.0.1"] [])).2
    = tr1 ++ EvChange (Some "/hostedzone/Z1")
               (upsert_batch "zk01.example.com." (wrap_values ["10.0.0.1"]) 300)
             :: tr2 /\
    last (external_calls tr1)
    = Some (EvListRecords (Some "/hostedzone/Z1") "zk01.example.com." "A").
Proof.
  eexists (take 10 (trace (run_main args_zk (Sim.healthy_world ["10.0.0.1"] [])).2)),
          (drop 11 (trace (run_main args_zk (Sim.healthy_world ["10.0.0.1"] [])).2)).
  assert (trace (run_main args_zk (Sim.healthy_world ["10.0.0.1"] [])).2
          = take 10 (trace (run_main args_zk (Sim.healthy_world ["10.0.0.1"] [])).2)
            ++ EvChange (Some "/hostedzone/Z1")
                 (upsert_batch "zk01.example.com." (wrap_values ["10.0.0.1"]) 300)
               :: drop 11 (trace (run_main args_zk
                                    (Sim.healthy_world ["10.0.0.1"] [])).2))
    as Hsplit by (vm_compute; reflexivity).
  split; [exact Hsplit|].
  destruct (writes_only_what_it_just_read args_zk
              (Sim.healthy_world ["10.0.0.1"] []) _ _ _ _ Hsplit)
    as (n & ips & Hb & _ & Hlast).
  injection Hb as <- _. exact Hlast.
Defined.

(** ** One zone, records in order *)

Lemma in_zone_no_record_call (z : option string) (tr : list event) :
  submitted tr = [] -> listed_names tr = [] -> Forall (in_zone z) tr.
Proof.
  induction tr as [|ev tr IH]; [constructor|].
  destruct ev; simpl; try discriminate; intros Hs Hl;
    (constructor; [exact I | by apply IH]).
Qed.

Lemma in_zone_snoc (z : option string) (tr : list event) (ev : event) :
  Forall (in_zone z) tr -> in_zone z ev -> Forall (in_zone z) (tr ++ [ev]).
Proof. intros Htr Hev. apply Forall_app. split; [done|]. by constructor. Qed.

Section OneZone.
Context {W : Type} `{!Externals W}.

Lemma upsert_record_in_zone z n ips ttl_ (st : state W) :
  Forall (in_zone z) (trace st) ->
  Forall (in_zone z) (trace (upsert_record z n ips ttl_ st).2).
Proof.
  intros Htr. destruct ips as [|v l].
  - by rewrite upsert_record_nil.
  - rewrite upsert_record_cons by done. cbv zeta.
    destruct (change_resource_record_sets _ _ _) as [[e|u] w']; cbn [snd trace];
      repeat (apply in_zone_snoc; [|done]); done.
Qed.

Lemma reconcile_record_in_zone z n desired ttl_ msg (st : state W) :
  Forall (in_zone z) (trace st) ->
  Forall (in_zone z) (trace (reconcile_record z n desired ttl_ msg st).2).
Proof.
  intros Htr. unfold reconcile_record, bind. rewrite fetch_run.
  destruct (list_resource_record_sets z n "A" (world st)) as [[e|res] w1];
    cbn [snd trace]; [by apply in_zone_snoc|].
  set (existing := sorted (collect_values n res)).
  destruct (decide (existing = [])) as [->|Hex].
  - rewrite reconcile_create. apply upsert_record_in_zone. cbn [trace].
    repeat (apply in_zone_snoc; [|done]). done.
  - destruct (decide (sorted desired = sorted existing)) as [Heq|Hne].
    + rewrite reconcile_up_to_date by done. cbn [snd trace].
      repeat (apply in_zone_snoc; [|done]). done.
    + rewrite reconcile_update by done. apply upsert_record_in_zone.
      cbn [trace]. repeat (apply in_zone_snoc; [|done]). done.
Qed.

Lemma main_tail_in_zone (a : args) z fqdn members (st : state W) :
  Forall (in_zone z) (trace st) ->
  Forall (in_zone z) (trace (main_tail a z fqdn members st).2).
Proof.
  intros Htr. unfold main_tail.
  apply (bind_invariant (fun st => Forall (in_zone z) (trace st))).
  { by apply reconcile_record_in_zone. }
  intros _ st1 Hst1.
  apply (bind_invariant (fun st => Forall (in_zone z) (trace st))).
  { unfold member_loop.
    apply (for_each_invariant (fun st => Forall (in_zone z) (trace st))); [|done].
    intros [i ip] st2 Hst2. rewrite member_body_run.
    apply reconcile_record_in_zone. cbn [trace]. by apply in_zone_snoc. }
  intros _ st2 Hst2. cbn [snd trace logging_info emit]. by apply in_zone_snoc.
Qed.

(** The records read in the loop, however it ends: the first ones in rank
    order, all of them when the loop returns normally. *)
Lemma member_loop_reads (a : args) z (xs : list string) (k : nat) (st : state W) :
  exists j,
    j <= length xs /\
    listed_names (trace (for_each (enumerate_from k xs) (member_body a z) st).2)
    = listed_names (trace st)
      ++ map (fun idx => member_fqdn idx (zone a)) (seq (S k) j) /\
    ((for_each (enumerate_from k xs) (member_body a z) st).1 = inr tt ->
     j = length xs).
Proof.
  revert k st. induction xs as [|x xs IH]; intros k st.
  - exists 0. simpl. by rewrite app_nil_r.
  - change (enumerate_from k (x :: xs)) with ((k, x) :: enumerate_from (S k) xs).
    rewrite for_each_cons. unfold bind. rewrite member_body_run.
    set (st0 := mkState (world st) _).
    destruct (list_resource_record_sets z (member_fqdn (k + 1) (zone a)) "A"
                (world st0)) as [[e|res] w1] eqn:Hr.
    + rewrite (reconcile_record_read_error _ _ _ _ _ _ e w1) by done.
      exists 1. split; [simpl; lia|]. split; [|done].
      cbn [snd trace]. unfold st0. cbn [trace]. trace_simpl.
      by rewrite Nat.add_1_r.
    + destruct (reconcile_record_effect z (member_fqdn (k + 1) (zone a)) [x]
                  (ttl a) ("Creating new record: " +:+ member_fqdn (k + 1) (zone a))
                  st0 res w1 Hr) as (st1 & Hrun & Hl & _).
      rewrite Hrun. destruct (IH (S k) st1) as (j & Hj & Hnames & Hall).
      exists (S j). split; [simpl; lia|]. split.
      * rewrite Hnames, Hl. unfold st0. cbn [trace]. trace_simpl.
        rewrite <- app_assoc. simpl. by rewrite Nat.add_1_r.
      * intros Hok. simpl. f_equal. by apply Hall.
Qed.

Lemma reconcile_record_counts z n desired ttl_ msg (st : state W) :
  upsert_count (trace st) <= length (listed_names (trace st)) ->
  upsert_count (trace (reconcile_record z n desired ttl_ msg st).2)
  <= length (listed_names (trace (reconcile_record z n desired ttl_ msg st).2)).
Proof.
  intros Hst. unfold upsert_count in *.
  destruct (list_resource_record_sets z n "A" (world st)) as [[e|res] w1] eqn:Hr.
  - rewrite (reconcile_record_read_error _ _ _ _ _ _ e w1) by done.
    cbn [snd trace]. trace_simpl. rewrite length_app. simpl. lia.
  - destruct (reconcile_record_effect z n desired ttl_ msg st res w1 Hr)
      as (st1 & Hrun & Hl & Hs & _).
    rewrite Hrun. cbn [snd]. rewrite Hl, Hs, !length_app.
    destruct (submits desired _); simpl; lia.
Qed.

Lemma main_tail_counts (a : args) z fqdn members (st : state W) :
  upsert_count (trace st) <= length (listed_names (trace st)) ->
  upsert_count (trace (main_tail a z fqdn members st).2)
  <= length (listed_names (trace (main_tail a z fqdn members st).2)).
Proof.
  intros Hst. unfold main_tail.
  apply (bind_invariant
           (fun st => upsert_count (trace st) <= length (listed_names (trace st)))).
  { by apply reconcile_record_counts. }
  intros _ st1 Hst1.
  apply (bind_invariant
           (fun st => upsert_count (trace st) <= length (listed_names (trace st)))).
  { unfold member_loop.
    apply (for_each_invariant
             (fun st => upsert_count (trace st)
                        <= length (listed_names (trace st)))); [|done].
    intros [i ip] st2 Hst2. rewrite member_body_run.
    apply reconcile_record_counts. cbn [trace]. unfold upsert_count.
    by trace_simpl. }
  intros _ st2 Hst2. cbn [snd trace logging_info emit]. unfold upsert_count in *.
  by trace_simpl.
Qed.

End OneZone.

(** X11: every record call of a run is made in one zone, the one whose
    identifier is the [Id] of the first hosted zone the lookup returned
    (none, when that zone comes without [Id]), and every read starts at
    type A. *)
Theorem record_calls_in_first_zone {W} `{!Externals W}
    (a : args) (w w1 : W) (zr : list_zones_response) (z0 : hosted_zone)
    (others : list hosted_zone) :
  list_hosted_zones_by_name (zone a) w = (inr zr, w1) ->
  HostedZones zr = Some (z0 :: others) ->
  forall ev, ev ∈ trace (run_main a w).2 ->
    match ev with
    | EvListRecords z' _ t => z' = Id z0 /\ t = "A"
    | EvChange z' _ => z' = Id z0
    | _ => True
    end.
Proof.
  intros Hz Hzones.
  assert (Forall (in_zone (Id z0)) (trace (run_main a w).2)) as Hall.
  { destruct (main_setup_cases a w)
      as [(e & st' & Hrun & Hs & Hl)
         |(v1 & v2 & zr' & z & fqdn & resp & body & servers
             & Hz' & Hid & Hfq & Hget & Hb & Hsv)].
    - rewrite Hrun. by apply in_zone_no_record_call.
    - rewrite Hz in Hz'. injection Hz' as <- <-.
      unfold first_zone_id in Hid. rewrite Hzones in Hid. injection Hid as <-.
      rewrite (main_after_setup a w w1 v2 zr (Id z0) fqdn resp body servers);
        [|done| |done..].
      + apply main_tail_in_zone. by apply in_zone_no_record_call.
      + unfold first_zone_id. by rewrite Hzones. }
  intros ev Hev. rewrite Forall_forall in Hall. apply (Hall ev Hev).
Qed.

Lemma record_calls_in_first_zone_witness :
  Forall (in_zone (Some "/hostedzone/Z1"))
         (trace (run_main args_zk two_member_world).2).
Proof.
  apply Forall_forall. intros ev Hev.
  pose proof (record_calls_in_first_zone args_zk two_member_world
                two_member_world
                {| HostedZones := Some [ {| Id := Some "/hostedzone/Z1" |} ] |}
                {| Id := Some "/hostedzone/Z1" |} []
                eq_refl eq_refl ev Hev) as H.
  destruct ev; exact H.
Defined.

(** X12: once the setup of a run has succeeded, the records it reads are,
    in this order, the aggregate record and then the per-member records of
    ranks 1, 2, ... up to some rank, which is the number of members when the
    run returns normally; and no run submits more upserts than it has read
    records. *)
Theorem reads_in_rank_order {W} `{!Externals W} (a : args) (w : W) :
  (forall w1 w2 zr z fqdn resp body servers,
     list_hosted_zones_by_name (zone a) w = (inr zr, w1) ->
     first_zone_id zr = inr z ->
     aggregate_fqdn (rr a) (zone a) = inr fqdn ->
     requests_get (exhibitor_endpoint (exhibitor_url a)) accept_json w1
       = (inr resp, w2) ->
     json_body resp = Some body ->
     body !! "servers" = Some servers ->
     exists j,
       j <= length servers /\
       listed_names (trace (run_main a w).2) = fqdn :: member_names a j /\
       ((run_main a w).1 = inr tt -> j = length servers)) /\
  upsert_count (trace (run_main a w).2)
  <= length (listed_names (trace (run_main a w).2)).
Proof.
  split.
  - intros w1 w2 zr z fqdn resp body servers Hz Hid Hfq Hget Hb Hsv.
    rewrite (main_after_setup a w w1 w2 zr z fqdn resp body servers) by done.
    set (st := mkState w2 _). unfold main_tail.
    destruct (list_resource_record_sets z fqdn "A" (world st))
      as [[e|res] w3] eqn:Hr.
    + rewrite (bind_inl _ _ _ e (mkState w3 (trace st ++ [EvListRecords z fqdn "A"])))
        by (by apply reconcile_record_read_error).
      exists 0. split; [lia|]. split; [|done]. cbn [snd trace]. by trace_simpl.
    + destruct (reconcile_record_effect z fqdn (sorted servers) (ttl a)
                  "Creating new record." st res w3 Hr)
        as (st1 & Hrun & Hl & _).
      rewrite (bind_inr _ _ _ _ _ Hrun). unfold member_loop, enumerate.
      destruct (member_loop_reads a z (sorted (sorted servers)) 0 st1)
        as (j & Hj & Hnames & Hall).
      rewrite sorted_length, sorted_length in Hj.
      rewrite sorted_length, sorted_length in Hall.
      exists j. split; [done|]. unfold bind.
      destruct (for_each _ _ st1) as [[e|u] st2]; cbn [fst snd] in *.
      * split; [|done]. rewrite Hnames, Hl. cbn [trace st]. by trace_simpl.
      * split; [|intros _; by apply Hall; destruct u].
        cbn [snd trace logging_info emit].
        rewrite listed_names_app, Hnames, Hl. cbn [trace st]. by trace_simpl.
  - destruct (main_setup_cases a w)
      as [(e & st' & Hrun & Hs & Hl)
         |(w1 & w2 & zr & z & fqdn & resp & body & servers
             & Hz & Hid & Hfq & Hget & Hb & Hsv)].
    + rewrite Hrun. unfold upsert_count. cbn [snd]. by rewrite Hs, Hl.
    + rewrite (main_after_setup a w w1 w2 zr z fqdn resp body servers) by done.
      apply main_tail_counts. unfold upsert_count. simpl. lia.
Qed.

Lemma reads_in_rank_order_witness :
  exists j,
    j <= 3 /\
    listed_names (trace (run_main args_zk Scripted.refusing_zk02).2)
    = "zk.example.com." :: member_names args_zk j /\
    j = 2.
Proof.
  destruct (proj1 (reads_in_rank_order args_zk Scripted.refusing_zk02)
              Scripted.refusing_zk02 Scripted.refusing_zk02
              {| HostedZones := Some [ {| Id := Some "/hostedzone/Z1" |} ] |}
              (Some "/hostedzone/Z1") "zk.example.com."
              {| status_code := 200;
                 json_body :=
                   Some {[ "servers" := ["10.0.0.3"; "10.0.0.2"; "10.0.0.1"] ]} |}
              {[ "servers" := ["10.0.0.3"; "10.0.0.2"; "10.0.0.1"] ]}
              ["10.0.0.3"; "10.0.0.2"; "10.0.0.1"])
    as (j & Hj & Hnames & _); [reflexivity..|].
  exists j. split; [exact Hj|]. split; [exact Hnames|].
  assert (length (listed_names
                    (trace (run_main args_zk Scripted.refusing_zk02).2)) = 3)
    as Hlen by (vm_compute; reflexivity).
  rewrite Hnames in Hlen. unfold member_names in Hlen. simpl in Hlen.
  rewrite length_map, length_seq in Hlen. lia.
Defined.

(** ** The rank of a member *)

Lemma filter_all {A} (P : A -> Prop) `{!forall x, Decision (P x)} (l : list A) :
  Forall P l -> filter P l = l.
Proof.
  induction 1 as [|x l Hx Hl IH]; [done|].
  rewrite filter_cons, decide_True by done. by rewrite IH.
Qed.

Lemma filter_none {A} (P : A -> Prop) `{!forall x, Decision (P x)} (l : list A) :
  Forall (fun x => ~ P x) l -> filter P l = [].
Proof.
  induction 1 as [|x l Hx Hl IH]; [done|].
  by rewrite filter_cons, decide_False.
Qed.

(** In a sorted list without repetition, the position of an element is the
    number of elements that sort strictly before it. *)
Lemma sorted_position (l : list string) (i : nat) (x : string) :
  StronglySorted String.le l -> NoDup l -> l !! i = Some x ->
  length (filter (sorts_before x) l) = i.
Proof.
  intros Hs Hnd Hi.
  pose proof (lookup_lt_Some _ _ _ Hi) as Hlt.
  rewrite <- (take_drop_middle l i x Hi) in Hs, Hnd |- *.
  apply StronglySorted_app in Hs as (Hle & _ & Hs2).
  apply StronglySorted_cons in Hs2 as [Hge _].
  apply NoDup_app in Hnd as (_ & Hdisj & Hnd2).
  apply NoDup_cons in Hnd2 as [Hx _].
  rewrite filter_app, filter_cons, decide_False by (by intros [_ ?]).
  rewrite filter_all, filter_none.
  - rewrite app_nil_r. apply length_take_le. lia.
  - rewrite Forall_forall in Hge |- *. intros y Hy [Hyx Hne].
    apply Hne. apply (anti_symm String.le); [done | by apply Hge].
  - apply Forall_forall. intros y Hy. split.
    + apply Hle; [done | left].
    + intros ->. apply (Hdisj x Hy). left.
Qed.

(** X13: when the members are pairwise distinct, the rank of a member, and
    with it the name of its record, is one more than the number of members
    whose address sorts strictly before its own; so the record name of a
    member depends on which other members there are. *)
Theorem rank_counts_members_before (members : list string) (i idx : nat)
    (address : string) :
  NoDup members ->
  ranked members !! i = Some (idx, address) ->
  idx = 1 + length (filter (sorts_before address) members).
Proof.
  intros Hnd Hi. apply ranked_lookup in Hi as [-> Hi].
  assert (length (filter (sorts_before address) members)
          = length (filter (sorts_before address) (sorted members))) as ->.
  { apply Permutation_length, filter_Permutation. symmetry.
    apply sorted_Permutation. }
  rewrite (sorted_position (sorted members) i address); [lia| | |done].
  - apply sorted_StronglySorted.
  - by rewrite sorted_Permutation.
Qed.

Lemma rank_counts_members_before_witness :
  2 = 1 + length (filter (sorts_before "10.0.0.2")
                         ["10.0.0.2"; "10.0.0.3"; "10.0.0.10"]).
Proof.
  apply (rank_counts_members_before ["10.0.0.2"; "10.0.0.3"; "10.0.0.10"]
           1 2 "10.0.0.2").
  - apply (bool_decide_unpack _). vm_compute. exact I.
  - reflexivity.
Defined.

(** ** How a run ends *)

Section Outcome.
Context {W : Type} `{!Externals W}.

Lemma get_zk_servers_trace u (st : state W) :
  trace (get_zk_servers u st).2
  = trace st ++ [EvGet (exhibitor_endpoint u) accept_json].
Proof.
  unfold get_zk_servers, bind, call.
  fold (exhibitor_endpoint u). fold accept_json.
  destruct (requests_get _ _ (world st)) as [[e|resp] w']; [reflexivity|].
  simpl. destruct (json resp) as [e|body]; [reflexivity|]. simpl.
  destruct (getitem body "servers"); reflexivity.
Qed.

Lemma reconcile_record_abort z n desired ttl_ msg (st : state W) e :
  (reconcile_record z n desired ttl_ msg st).1 = inl e ->
  last (trace (reconcile_record z n desired ttl_ msg st).2)
  = Some (EvListRecords z n "A").
Proof.
  destruct (list_resource_record_sets z n "A" (world st)) as [[e'|res] w1] eqn:Hr.
  - rewrite (reconcile_record_read_error _ _ _ _ _ _ e' w1) by done.
    intros _. cbn [snd trace]. apply last_snoc.
  - destruct (reconcile_record_effect z n desired ttl_ msg st res w1 Hr)
      as (st1 & -> & _). discriminate.
Qed.

Lemma member_loop_abort (a : args) z (xs : list string) (k : nat)
    (st : state W) e :
  (for_each (enumerate_from k xs) (member_body a z) st).1 = inl e ->
  exists n,
    last (trace (for_each (enumerate_from k xs) (member_body a z) st).2)
    = Some (EvListRecords z n "A").
Proof.
  revert k st. induction xs as [|x xs IH]; intros k st; [discriminate|].
  change (enumerate_from k (x :: xs)) with ((k, x) :: enumerate_from (S k) xs).
  rewrite for_each_cons. unfold bind. rewrite member_body_run.
  set (st0 := mkState (world st) _).
  pose proof (reconcile_record_abort z (member_fqdn (k + 1) (zone a)) [x] (ttl a)
                ("Creating new record: " +:+ member_fqdn (k + 1) (zone a)) st0)
    as Habort.
  destruct (reconcile_record _ _ _ _ _ st0) as [[e'|u] st1]; cbn [fst snd] in *.
  - intros _. eexists. by apply (Habort e').
  - apply IH.
Qed.

Lemma main_tail_outcome (a : args) z fqdn members (st : state W) :
  match (main_tail a z fqdn members st).1 with
  | inr _ =>
      last (trace (main_tail a z fqdn members st).2) = Some (EvLog INFO "Done!" [])
  | inl _ =>
      exists n, last (trace (main_tail a z fqdn members st).2)
                = Some (EvListRecords z n "A")
  end.
Proof.
  unfold main_tail, bind.
  pose proof (reconcile_record_abort z fqdn members (ttl a)
                "Creating new record." st) as Hagg.
  destruct (reconcile_record z fqdn members _ _ st) as [[e|u] st1];
    cbn [fst snd] in *; [eexists; by apply (Hagg e)|].
  pose proof (member_loop_abort a z (sorted members) 0 st1) as Hloop.
  unfold member_loop, enumerate.
  destruct (for_each _ _ st1) as [[e|u'] st2]; cbn [fst snd] in *;
    [by apply (Hloop e)|].
  apply last_snoc.
Qed.

(** A run that aborts stops right after the zone lookup, the request to
    the ensemble endpoint or a record read. *)
Lemma main_abort_last (a : args) (w : W) e :
  (run_main a w).1 = inl e ->
  last (trace (run_main a w).2) = Some (EvListZones (zone a)) \/
  last (trace (run_main a w).2)
  = Some (EvGet (exhibitor_endpoint (exhibitor_url a)) accept_json) \/
  exists z n, last (trace (run_main a w).2) = Some (EvListRecords z n "A").
Proof.
  destruct (list_hosted_zones_by_name (zone a) w) as [[e'|zr] w1] eqn:Hz.
  { intros _. left.
    unfold run_main, main, bind, call. simpl. rewrite Hz. done. }
  destruct (first_zone_id zr) as [e'|z] eqn:Hid.
  { intros _. left.
    unfold run_main, main, bind, call. simpl. rewrite Hz. simpl.
    rewrite Hid. done. }
  destruct (aggregate_fqdn (rr a) (zone a)) as [e'|fqdn] eqn:Hfq.
  { intros _. left.
    unfold run_main, main, bind, call. simpl. rewrite Hz. simpl.
    rewrite Hid. simpl. rewrite Hfq. done. }
  destruct (get_zk_servers (exhibitor_url a)
              (mkState w1 [EvListZones (zone a);
                           EvLog INFO "Managing route53 record: %s" [LStr fqdn]]))
    as [[e'|members] st2] eqn:Hg.
  { intros _. right. left.
    rewrite (main_aborts_with_reader a w w1 zr z fqdn e' st2) by done.
    pose proof (get_zk_servers_trace (exhibitor_url a)
                  (mkState w1 [EvListZones (zone a);
                               EvLog INFO "Managing route53 record: %s"
                                 [LStr fqdn]])) as Htr.
    rewrite Hg in Htr. cbn [snd] in *. rewrite Htr. apply last_snoc. }
  revert Hg. unfold get_zk_servers, bind, call. simpl.
  fold (exhibitor_endpoint (exhibitor_url a)). fold accept_json.
  destruct (requests_get _ _ w1) as [[e'|resp] w2] eqn:Hget; [done|]. simpl.
  unfold json. destruct (json_body resp) as [body|] eqn:Hb; [|done]. simpl.
  unfold getitem. destruct (body !! "servers") as [servers|] eqn:Hs; [|done].
  intros _.
  rewrite (main_after_setup a w w1 w2 zr z fqdn resp body servers) by done.
  intros Herr.
  pose proof (main_tail_outcome a z fqdn (sorted servers)
                (mkState w2 (setup_trace a fqdn (sorted servers)))) as Hout.
  rewrite Herr in Hout. destruct Hout as [n Hn]. right. right. by exists z, n.
Qed.

End Outcome.

(** X14: the zone lookup is fatal in three ways, each ending the run right
    after the lookup, before the record name is looked at and before the
    ensemble is asked: the lookup raises; its answer has no [HostedZones];
    its list of hosted zones is empty. *)
Theorem zone_lookup_failures_abort {W} `{!Externals W} (a : args) (w : W) :
  (forall e w1,
     list_hosted_zones_by_name (zone a) w = (inl e, w1) ->
     run_main a w = (inl e, mkState w1 [EvListZones (zone a)])) /\
  (forall zr w1,
     list_hosted_zones_by_name (zone a) w = (inr zr, w1) ->
     HostedZones zr = None ->
     run_main a w =
     (inl (TypeError "'NoneType' object is not subscriptable"),
      mkState w1 [EvListZones (zone a)])) /\
  (forall zr w1,
     list_hosted_zones_by_name (zone a) w = (inr zr, w1) ->
     HostedZones zr = Some [] ->
     run_main a w =
     (inl (IndexError "list index out of range"),
      mkState w1 [EvListZones (zone a)])).
Proof.
  split; [|split].
  - intros e w1 Hz. unfold run_main, main, bind, call. simpl. by rewrite Hz.
  - intros zr w1 Hz Hnone. unfold run_main, main, bind, call. simpl.
    rewrite Hz. simpl. unfold first_zone_id. by rewrite Hnone.
  - intros zr w1 Hz Hnil. unfold run_main, main, bind, call. simpl.
    rewrite Hz. simpl. unfold first_zone_id. by rewrite Hnil.
Qed.

Lemma zone_lookup_failures_abort_witness :
  run_main args_empty_rr no_zone_world
  = (inl (IndexError "list index out of range"),
     mkState no_zone_world [EvListZones "example.com"]).
Proof.
  apply (proj2 (proj2 (zone_lookup_failures_abort args_empty_rr no_zone_world))
           {| HostedZones := Some [] |} no_zone_world); reflexivity.
Defined.

(** X15: the last line of the log tells how the run ended.  The run returns
    normally exactly when the last thing it did was to log "Done!"; and when
    it aborts, the last thing it did was a call to the outside other than an
    upsert: the zone lookup, the request to the ensemble endpoint or a record
    read.  A failed upsert does not show there: it is logged and the run
    goes on. *)
Theorem done_logged_iff_normal {W} `{!Externals W} (a : args) (w : W) :
  ((run_main a w).1 = inr tt <->
   last (trace (run_main a w).2) = Some (EvLog INFO "Done!" [])) /\
  (forall e, (run_main a w).1 = inl e ->
     last (trace (run_main a w).2) = Some (EvListZones (zone a)) \/
     last (trace (run_main a w).2)
     = Some (EvGet (exhibitor_endpoint (exhibitor_url a)) accept_json) \/
     exists z n, last (trace (run_main a w).2) = Some (EvListRecords z n "A")).
Proof.
  split; [|apply main_abort_last]. split.
  - intros Hok.
    destruct (main_setup_cases a w)
      as [(e & st' & Hrun & _)
         |(w1 & w2 & zr & z & fqdn & resp & body & servers
             & Hz & Hid & Hfq & Hget & Hb & Hsv)].
    { rewrite Hrun in Hok. discriminate. }
    rewrite (main_after_setup a w w1 w2 zr z fqdn resp body servers) in Hok |- *
      by done.
    pose proof (main_tail_outcome a z fqdn (sorted servers)
                  (mkState w2 (setup_trace a fqdn (sorted servers)))) as Hout.
    by rewrite Hok in Hout.
  - intros Hlast. destruct (run_main a w).1 as [e|[]] eqn:Hres; [|done].
    destruct (main_abort_last a w e Hres) as [Hev|[Hev|(z & n & Hev)]];
      rewrite Hlast in Hev; discriminate.
Qed.

(** Every upsert refused, and still "Done!" at the end; an empty record
    name, and the zone lookup is the last thing done. *)
Lemma done_logged_iff_normal_witness :
  last (trace (run_main args_zk refusing_world).2) = Some (EvLog INFO "Done!" []) /\
  last (trace (run_main args_empty_rr two_member_world).2)
  = Some (EvListZones "example.com").
Proof.
  split.
  - apply (proj1 (done_logged_iff_normal args_zk refusing_world)).
    vm_compute. reflexivity.
  - destruct (proj2 (done_logged_iff_normal args_empty_rr two_member_world)
                (IndexError "string index out of range"))
      as [H|[H|(z & n & H)]]; [reflexivity | exact H | ..].
    + exfalso. revert H. vm_compute. discriminate.
    + exfalso. revert H. vm_compute. discriminate.
Defined.

(** ** When a record is written *)

(** X16: the reconciler and the writer's guard together: one reconciliation
    submits an upsert of the desired values exactly when something is
    desired and the desired and the existing values differ as multisets;
    otherwise it submits nothing.  In both cases it returns normally. *)
Theorem reconcile_writes_iff_values_differ {W} `{!Externals W}
    (z : option string) (n : string) (desired existing : list string)
    (ttl_ : Z) (msg : string) (st : state W) :
  (reconcile z n desired existing ttl_ msg st).1 = inr tt /\
  ((desired <> [] /\ ~ desired ≡ₚ existing /\
    submitted (trace (reconcile z n desired existing ttl_ msg st).2)
    = submitted (trace st) ++ [(z, upsert_batch n (wrap_values desired) ttl_)]) \/
   ((desired = [] \/ desired ≡ₚ existing) /\
    submitted (trace (reconcile z n desired existing ttl_ msg st).2)
    = submitted (trace st))).
Proof.
  destruct (reconcile_effect z n desired existing ttl_ msg st)
    as (st' & Hrun & _ & Hs & _).
  rewrite Hrun. split; [done|]. cbn [snd]. rewrite Hs.
  destruct (submits desired existing) eqn:Hsub.
  - left. apply submits_true_iff in Hsub as [Hd Hp]. done.
  - right. rewrite app_nil_r. split; [|done].
    destruct (decide (desired = [])) as [|Hd]; [by left|]. right.
    destruct (decide (desired ≡ₚ existing)) as [|Hp]; [done|].
    assert (submits desired existing = true) as Ht
      by (by apply submits_true_iff).
    congruence.
Qed.

(** X17: the order in which the endpoint lists the members plays no part:
    two lists with the same members give the same sorted list, the same
    ranks, and the same loop over the per-member records. *)
Theorem member_order_irrelevant {W} `{!Externals W}
    (servers servers' : list string) :
  servers ≡ₚ servers' ->
  sorted servers = sorted servers' /\
  ranked servers = ranked servers' /\
  (forall (a : args) z (st : state W),
     member_loop a z servers st = member_loop a z servers' st).
Proof.
  intros Hp. pose proof (sorted_Permutation_eq _ _ Hp) as Hs.
  split; [done|]. split.
  - unfold ranked. by rewrite Hs, (Permutation_length Hp).
  - intros a z st. unfold member_loop. by rewrite Hs.
Qed.

Lemma member_order_irrelevant_witness :
  ranked ["10.0.0.2"; "10.0.0.1"; "10.0.0.3"]
  = ranked ["10.0.0.3"; "10.0.0.2"; "10.0.0.1"].
Proof.
  apply (member_order_irrelevant (W:=Sim.world)
           ["10.0.0.2"; "10.0.0.1"; "10.0.0.3"]
           ["10.0.0.3"; "10.0.0.2"; "10.0.0.1"]).
  apply (bool_decide_unpack _). vm_compute. exact I.
Defined.
